(** * Rag_Chatbot: the indexing-and-retrieval pipeline, embedded in Rocq

    The development follows the Python sources module by module:
    - [core/ingest.py]    page extraction ([extract_pdf_pages], [get_page_count]);
    - [core/chunker.py]   [chunk_document] over the recursive character splitter;
    - [core/storage.py]   [save_chunks_to_db], [query_collection],
                          [delete_document_chunks] over the vector engine;
    - [core/retriever.py] [get_context];
    - [core/qa_engine.py] [generate_answer];
    - [backend/main.py]   the [/query] endpoint [query_documents].

    Python strings are sequences of characters; here a character is an
    8-bit code point ([ascii]), Python [int] is [Z], a [float] distance is
    idealised as a rational ([Q]).  Exceptions are explicit: a function that
    may raise returns a [result]. *)

From Stdlib Require Import Ascii QArith Qround Lqa.
From Stdlib Require String.
From stdpp Require Import gmap strings list fin_maps sorting pretty.

Local Open Scope Z_scope.

(** ** Exceptions *)

Record exn := Exn { exn_type : string; exn_msg : string }.

Inductive result (A : Type) : Type :=
| Ok (a : A)
| Raise (e : exn).
Arguments Ok {A} a.
Arguments Raise {A} e.

Global Instance result_ret : MRet result := fun A a => Ok a.
Global Instance result_bind : MBind result := fun A B k r =>
  match r with
  | Ok a => k a
  | Raise e => Raise e
  end.

(** ** Python string primitives *)

Module Str.

Definition LF : string := String "010"%char EmptyString.

Definition len (s : string) : Z := Z.of_nat (String.length s).

(** [str.isspace] on one character, for the code points below 256. *)
Definition isspace (c : ascii) : bool :=
  match c with
  | "009" | "010" | "011" | "012" | "013"
  | "028" | "029" | "030" | "031" | " "
  | "133" | "160" => true
  | _ => false
  end%char.

Fixpoint lstrip (s : string) : string :=
  match s with
  | EmptyString => EmptyString
  | String c s' => if isspace c then lstrip s' else s
  end.

Fixpoint rstrip (s : string) : string :=
  match s with
  | EmptyString => EmptyString
  | String c s' =>
      match rstrip s' with
      | EmptyString => if isspace c then EmptyString else String c EmptyString
      | r => String c r
      end
  end.

(** [s.strip()] *)
Definition strip (s : string) : string := rstrip (lstrip s).

Fixpoint blank (s : string) : bool :=
  match s with
  | EmptyString => true
  | String c s' => isspace c && blank s'
  end.

(** [sep.join(parts)] *)
Fixpoint join (sep : string) (parts : list string) : string :=
  match parts with
  | [] => ""
  | p :: rest =>
      match rest with
      | [] => p
      | _ :: _ => p +:+ sep +:+ join sep rest
      end
  end.

(** [list(s)]: the one-character strings of [s]. *)
Fixpoint chars (s : string) : list string :=
  match s with
  | EmptyString => []
  | String c s' => String c EmptyString :: chars s'
  end.

(** [sub in s], also what [re.search(re.escape(sub), s)] decides. *)
Fixpoint contains (sub s : string) : bool :=
  String.prefix sub s ||
  match s with
  | EmptyString => false
  | String _ s' => contains sub s'
  end.

(** Scan for the non-overlapping occurrences of [sub], leftmost first;
    [skip] characters of the last occurrence are still to be passed. *)
Fixpoint count_from (sub s : string) (skip : nat) : nat :=
  match s with
  | EmptyString => 0%nat
  | String _ s' =>
      match skip with
      | S k => count_from sub s' k
      | O =>
          if String.prefix sub s
          then S (count_from sub s' (String.length sub - 1))
          else count_from sub s' 0
      end
  end.

(** [s.count(sub)] *)
Definition count (s sub : string) : nat :=
  match sub with
  | EmptyString => S (String.length s)
  | _ => count_from sub s 0
  end.

(** The pieces [p0; sep+p1; ...; sep+pn] of [s] cut in front of every
    non-overlapping occurrence of [sep] (the head of the list is the piece
    under construction). *)
Fixpoint cut_before (sep s : string) (skip : nat) : list string :=
  match s with
  | EmptyString => [EmptyString]
  | String c s' =>
      let boundary :=
        match skip with O => String.prefix sep s | S _ => false end in
      let skip' :=
        if boundary then (String.length sep - 1)%nat else (skip - 1)%nat in
      match cut_before sep s' skip' with
      | [] => [String c EmptyString]
      | p :: ps =>
          if boundary then EmptyString :: String c p :: ps
          else String c p :: ps
      end
  end.

End Str.

(** ** [langchain_text_splitters.RecursiveCharacterTextSplitter]

    The splitter [chunk_document] builds: [length_function = len], the
    defaults [keep_separator = True] (a separator stays at the start of the
    piece that follows it), [is_separator_regex = False] and
    [strip_whitespace = True]. *)

Module TextSplitter.

Record t := mk {
  chunk_size : Z;
  chunk_overlap : Z;
  separators : list string
}.

(** [TextSplitter.__init__]: the parameter checks. *)
Definition RecursiveCharacterTextSplitter
    (chunk_size chunk_overlap : Z) (separators : list string) : result t :=
  if chunk_size <=? 0 then
    Raise (Exn "ValueError"
             ("chunk_size must be > 0, got " +:+ pretty chunk_size))
  else if chunk_overlap <? 0 then
    Raise (Exn "ValueError"
             ("chunk_overlap must be >= 0, got " +:+ pretty chunk_overlap))
  else if chunk_overlap >? chunk_size then
    Raise (Exn "ValueError"
             ("Got a larger chunk overlap (" +:+ pretty chunk_overlap +:+
              ") than chunk size (" +:+ pretty chunk_size +:+
              "), should be smaller."))
  else Ok (mk chunk_size chunk_overlap separators).

(** [_join_docs]: [None] when the joined text is empty after stripping. *)
Definition join_docs (docs : list string) (separator : string) : option string :=
  let text := Str.strip (Str.join separator docs) in
  if decide (text = "") then None else Some text.

Definition sep_if (b : bool) (separator_len : Z) : Z :=
  if b then separator_len else 0.

Definition nonempty {A} (l : list A) : bool :=
  match l with [] => false | _ :: _ => true end.

Definition several {A} (l : list A) : bool :=
  match l with _ :: _ :: _ => true | _ => false end.

(** The inner [while] of [_merge_splits]: drop pieces from the front of
    [current_doc] while it is longer than the overlap, or while the next
    piece of length [_len] still does not fit.  [total] is the length of
    [current_doc] joined, so the loop test is false on the empty list for
    an overlap that passed the constructor. *)
Fixpoint pop_front (self : t) (separator_len _len : Z)
    (current_doc : list string) (total : Z) : list string * Z :=
  match current_doc with
  | [] => ([], total)
  | d0 :: tl =>
      if (total >? chunk_overlap self)
         || ((total + _len + sep_if (nonempty current_doc) separator_len
                >? chunk_size self) && (total >? 0))
      then pop_front self separator_len _len tl
             (total - (Str.len d0 + sep_if (several current_doc) separator_len))
      else (current_doc, total)
  end.

(** One iteration of the [for d in splits] loop of [_merge_splits] on the
    state [(docs, current_doc, total)]. *)
Definition merge_step (self : t) (separator : string)
    (st : list string * list string * Z) (d : string)
    : list string * list string * Z :=
  let '(docs, current_doc, total) := st in
  let separator_len := Str.len separator in
  let _len := Str.len d in
  let '(docs, current_doc, total) :=
    if (total + _len + sep_if (nonempty current_doc) separator_len
          >? chunk_size self) && nonempty current_doc
    then
      let docs :=
        match join_docs current_doc separator with
        | Some doc => docs ++ [doc]
        | None => docs
        end in
      let '(current_doc, total) :=
        pop_front self separator_len _len current_doc total in
      (docs, current_doc, total)
    else (docs, current_doc, total) in
  let current_doc := current_doc ++ [d] in
  (docs, current_doc, total + _len + sep_if (several current_doc) separator_len).

(** [_merge_splits] *)
Definition merge_splits (self : t) (splits : list string) (separator : string)
    : list string :=
  let '(docs, current_doc, _) :=
    fold_left (merge_step self separator) splits ([], [], 0) in
  match join_docs current_doc separator with
  | Some doc => docs ++ [doc]
  | None => docs
  end.

(** [_split_text_with_regex] with [keep_separator = True] on an escaped
    (literal) separator. *)
Definition split_text_with_regex (text separator : string) : list string :=
  let splits :=
    match separator with
    | EmptyString => Str.chars text
    | _ => Str.cut_before separator text 0
    end in
  filter (fun s => s <> "") splits.

(** The body of [_split_text] once [separator] is chosen: gather the pieces
    shorter than the chunk size and merge them; a longer piece is split
    again by [finer] (the call on [new_separators]), or kept whole when no
    finer separator is left.  The state is [(final_chunks, _good_splits)]. *)
Definition split_step (self : t) (finer : option (string -> list string))
    (st : list string * list string) (s : string)
    : list string * list string :=
  let '(final_chunks, good_splits) := st in
  if Str.len s <? chunk_size self then (final_chunks, good_splits ++ [s])
  else
    let final_chunks :=
      if nonempty good_splits
      then final_chunks ++ merge_splits self good_splits ""
      else final_chunks in
    match finer with
    | None => (final_chunks ++ [s], [])
    | Some other => (final_chunks ++ other s, [])
    end.

Definition split_with (self : t) (finer : option (string -> list string))
    (separator text : string) : list string :=
  let splits := split_text_with_regex text separator in
  let '(final_chunks, good_splits) :=
    fold_left (split_step self finer) splits ([], []) in
  if nonempty good_splits
  then final_chunks ++ merge_splits self good_splits ""
  else final_chunks.

(** [_split_text(text, separators)].  The [for] loop that picks the first
    separator found in [text] and the recursive call on the separators
    after it are one recursion on the list; [last] is [separators[-1]],
    used when the loop ends without a [break]. *)
Fixpoint split_text_rec (self : t) (last : string) (separators : list string)
    (text : string) : list string :=
  match separators with
  | [] => split_with self None last text
  | _s :: new_separators =>
      if decide (_s = "") then split_with self None "" text
      else if Str.contains _s text then
        split_with self
          match new_separators with
          | [] => None
          | _ :: _ => Some (split_text_rec self last new_separators)
          end _s text
      else split_text_rec self last new_separators text
  end.

(** [split_text] *)
Definition split_text (self : t) (text : string) : list string :=
  split_text_rec self (List.last (separators self) "") (separators self) text.

End TextSplitter.

(** ** [models.py] *)

(** [uuid.UUID]: a 128-bit integer; [str] renders it as 32 lowercase
    hexadecimal digits in groups of 8-4-4-4-12. *)
Module UUID.

Definition t := N.

Definition hex_digit (n : N) : ascii :=
  match n with
  | 0 => "0" | 1 => "1" | 2 => "2" | 3 => "3" | 4 => "4" | 5 => "5"
  | 6 => "6" | 7 => "7" | 8 => "8" | 9 => "9" | 10 => "a" | 11 => "b"
  | 12 => "c" | 13 => "d" | 14 => "e" | _ => "f"
  end%N%char.

Fixpoint hex (width : nat) (n : N) : string :=
  match width with
  | O => ""
  | S w => hex w (n / 16)%N +:+ String (hex_digit (n mod 16)%N) ""
  end.

Definition str (u : t) : string :=
  let h := hex 32 u in
  String.substring 0 8 h +:+ "-" +:+ String.substring 8 4 h +:+ "-" +:+
  String.substring 12 4 h +:+ "-" +:+ String.substring 16 4 h +:+ "-" +:+
  String.substring 20 12 h.

End UUID.

Module Chunk.

Record t := mk {
  chunk_id : string;
  doc_id : UUID.t;
  page_number : Z;
  text : string
}.

End Chunk.

(** ** [core/ingest.py] *)

(** One entry of [pages_data]: the dict with keys ["text"] and
    ["page_number"]. *)
Module Page.

Record t := mk {
  text : string;
  page_number : Z
}.

End Page.

(** What [page.extract_text()] does on one page of the reader: it raises,
    returns [None], or returns the text. *)
Definition extract_text_outcome := result (option string).

(** The [for idx, page in enumerate(reader.pages)] loop of
    [extract_pdf_pages], [idx] being the index of the head of [pages]. *)
Fixpoint extract_pages_from (idx : nat) (pages : list extract_text_outcome)
    : list Page.t :=
  match pages with
  | [] => []
  | page :: rest =>
      let page_number := Z.of_nat idx + 1 in
      match page with
      | Ok (Some text) =>
          if decide (Str.strip text = "") then extract_pages_from (S idx) rest
          else Page.mk (Str.strip text) page_number
                 :: extract_pages_from (S idx) rest
      | Ok None | Raise _ => extract_pages_from (S idx) rest
      end
  end.

Definition extract_pdf_pages (reader_pages : list extract_text_outcome)
    : list Page.t :=
  extract_pages_from 0 reader_pages.

Definition get_page_count (reader_pages : list extract_text_outcome) : Z :=
  Z.of_nat (length reader_pages).

(** ** [core/chunker.py] *)

(** [f"{doc_id}_{page_number}_{idx}"] *)
Definition format_chunk_id (doc_id : UUID.t) (page_number : Z) (idx : nat)
    : string :=
  UUID.str doc_id +:+ "_" +:+ pretty page_number +:+ "_" +:+ pretty idx.

(** [enumerate(l)] counting from [start]. *)
Fixpoint enumerate_from {A} (start : nat) (l : list A) : list (nat * A) :=
  match l with
  | [] => []
  | x :: l' => (start, x) :: enumerate_from (S start) l'
  end.

Definition chunk_separators : list string :=
  [Str.LF +:+ Str.LF; Str.LF; ". "; " "; ""].

(** The body of [for page in pages_data]: the chunks of one page are
    appended to [chunks]. *)
Definition chunk_page (text_splitter : TextSplitter.t) (doc_id : UUID.t)
    (chunks : list Chunk.t) (page : Page.t) : list Chunk.t :=
  let page_text := Page.text page in
  let page_number := Page.page_number page in
  let text_chunks := TextSplitter.split_text text_splitter page_text in
  fold_left
    (fun chunks '(idx, text) =>
       let chunk_id := format_chunk_id doc_id page_number idx in
       chunks ++ [Chunk.mk chunk_id doc_id page_number text])
    (enumerate_from 0 text_chunks) chunks.

Definition chunk_document (pages_data : list Page.t) (doc_id : UUID.t)
    (chunk_size chunk_overlap : Z) : result (list Chunk.t) :=
  text_splitter ←
    TextSplitter.RecursiveCharacterTextSplitter
      chunk_size chunk_overlap chunk_separators;
  Ok (fold_left (chunk_page text_splitter doc_id) pages_data []).

(** ** The vector engine ([chromadb])

    A collection is keyed by record id.  [add] inserts the records whose id
    is not stored yet and skips the others (the engine's overwriting entry
    point is [upsert], which [core/storage.py] never calls); [query] ranks
    the records that pass the [where] clause by their distance to the query
    embedding; [delete] removes the records that pass the [where] clause.
    Every call raises when the storage cannot be reached. *)

Module Chroma.

(** A metadata value: [str] or [int]. *)
Inductive mvalue :=
| MStr (s : string)
| MInt (z : Z).

Global Instance mvalue_eq_dec : EqDecision mvalue.
Proof. solve_decision. Defined.

(** [str(v)] *)
Definition mvalue_str (v : mvalue) : string :=
  match v with
  | MStr s => s
  | MInt z => pretty z
  end.

Abbreviation Metadata := (gmap string mvalue).

(** A [where] clause [{key: value}]. *)
Definition Where : Type := string * mvalue.

Definition where_matches (where_ : option Where) (metadata : Metadata) : bool :=
  match where_ with
  | None => true
  | Some (key, value) => bool_decide (metadata !! key = Some value)
  end.

(** The dict a query returns, one inner list per query embedding; a field
    left out of [include] is [None]. *)
Record QueryResult := {
  ids : list (list string);
  documents : option (list (list string));
  metadatas : option (list (list Metadata));
  distances : option (list (list Q))
}.

Section engine.

Context {Emb : Type}.
Context (distance : Emb -> Emb -> Q).

Record Row := {
  document : string;
  embedding : Emb;
  metadata : Metadata
}.

Record Collection := {
  online : bool;
  rows : gmap string Row
}.

Definition unreachable : exn := Exn "InternalError" "storage unreachable".

Definition get_or_create_collection (client : Collection) : result Collection :=
  if online client then Ok client else Raise unreachable.

(** The records of one [add] batch, in order. *)
Fixpoint batch (ids documents : list string) (embeddings : list Emb)
    (metadatas : list Metadata) : list (string * Row) :=
  match ids, documents, embeddings, metadatas with
  | i :: ids', d :: documents', e :: embeddings', m :: metadatas' =>
      (i, Build_Row d e m) :: batch ids' documents' embeddings' metadatas'
  | _, _, _, _ => []
  end.

Definition add_row (m : gmap string Row) (r : string * Row) : gmap string Row :=
  match m !! r.1 with
  | Some _ => m
  | None => <[r.1 := r.2]> m
  end.

Definition add (collection : Collection) (ids documents : list string)
    (embeddings : list Emb) (metadatas : list Metadata) : result Collection :=
  if negb (online collection) then Raise unreachable
  else if bool_decide (ids = []) then
    Raise (Exn "ValueError" "Expected IDs to be a non-empty list")
  else if negb (bool_decide (length documents = length ids
                             ∧ length embeddings = length ids
                             ∧ length metadatas = length ids)) then
    Raise (Exn "ValueError" "Unequal lengths for fields")
  else if negb (bool_decide (NoDup ids)) then
    Raise (Exn "DuplicateIDError" "Expected IDs to be unique")
  else
    Ok {| online := online collection;
          rows := fold_left add_row
                    (batch ids documents embeddings metadatas)
                    (rows collection) |}.

Definition closer (q : Emb) (a b : string * Row) : Prop :=
  Qle_bool (distance q (embedding a.2)) (distance q (embedding b.2)).

Global Instance closer_dec q a b : Decision (closer q a b).
Proof. unfold closer. apply _. Defined.

(** The records returned for one query embedding, best match first.
    Records at the same distance come in the order of their keys; the
    engine returns them in an order of its own, and nothing below rests
    on the order of ties. *)
Definition nearest (collection : Collection) (q : Emb) (n_results : Z)
    (where_ : option Where) : list (string * Row) :=
  take (Z.to_nat n_results)
    (merge_sort (closer q)
       (filter (fun r => where_matches where_ (metadata r.2))
          (map_to_list (rows collection)))).

(** The inner lists of the result for the hits of one query embedding. *)
Definition hit_ids (hits : list (string * Row)) : list string :=
  (fun r => r.1) <$> hits.

Definition hit_documents (hits : list (string * Row)) : list string :=
  (fun r => document r.2) <$> hits.

Definition hit_metadatas (hits : list (string * Row)) : list Metadata :=
  (fun r => metadata r.2) <$> hits.

Definition hit_distances (q : Emb) (hits : list (string * Row)) : list Q :=
  (fun r => distance q (embedding r.2)) <$> hits.

Definition query (collection : Collection) (query_embeddings : list Emb)
    (n_results : Z) (where_ : option Where) : result QueryResult :=
  if negb (online collection) then Raise unreachable
  else if n_results <=? 0 then
    Raise (Exn "TypeError"
             ("Number of requested results " +:+ pretty n_results +:+
              ", cannot be negative, or zero. in query."))
  else
    let hits (q : Emb) := nearest collection q n_results where_ in
    Ok {| ids := (fun q => hit_ids (hits q)) <$> query_embeddings;
          documents :=
            Some ((fun q => hit_documents (hits q)) <$> query_embeddings);
          metadatas :=
            Some ((fun q => hit_metadatas (hits q)) <$> query_embeddings);
          distances :=
            Some ((fun q => hit_distances q (hits q)) <$> query_embeddings) |}.

Definition delete (collection : Collection) (where_ : Where) : result Collection :=
  if negb (online collection) then Raise unreachable
  else
    Ok {| online := online collection;
          rows := filter (fun r => negb (where_matches (Some where_) (metadata r.2)))
                    (rows collection) |}.

End engine.

Arguments Row : clear implicits.
Arguments Collection : clear implicits.

End Chroma.

(** ** [format(x, ".2%")]: [x] times 100 with two decimals and a percent
    sign, rounded half to even.  The rounding is that of the exact value;
    on the single-precision distances the engine returns, the
    double-precision arithmetic of the source prints the same text. *)

Definition round_half_even (q : Q) : Z :=
  let f := Qfloor q in
  let r := (q - inject_Z f)%Q in
  match (r ?= 1 # 2)%Q with
  | Lt => f
  | Gt => f + 1
  | Eq => if Z.even f then f else f + 1
  end.

Definition two_digits (n : Z) : string :=
  (if n <? 10 then "0" else "") +:+ pretty n.

Definition format_percent2 (x : Q) : string :=
  let n := Z.abs (round_half_even (x * 10000)) in
  (if Qlt_le_dec x 0 then "-" else "") +:+
  pretty (n / 100) +:+ "." +:+ two_digits (n mod 100) +:+ "%".

(** ** The external collaborators: the embedding model and the generation
    service.  Either call can fail; the service answers with a response
    whose text may be missing. *)

Section pipeline.

Context {Emb : Type}.
Context (distance : Emb -> Emb -> Q).
Context (embed_documents : list string -> result (list Emb)).
Context (embed_query : string -> result Emb).
Context (generate_content : string -> result (option string)).

Abbreviation Collection := (Chroma.Collection Emb).

(** *** [core/storage.py] *)

(** The three lists [ids], [documents], [metadatas] built by the
    [for chunk in chunks] loop. *)
Definition chunk_metadata (doc_metadata : Chroma.Metadata) (chunk : Chunk.t)
    : Chroma.Metadata :=
  {[ "doc_id" := Chroma.MStr (UUID.str (Chunk.doc_id chunk));
     "page_number" := Chroma.MInt (Chunk.page_number chunk);
     "filename" := default (Chroma.MStr "unknown") (doc_metadata !! "filename") ]}.

Definition prepare_step (doc_metadata : Chroma.Metadata)
    (acc : list string * list string * list Chroma.Metadata) (chunk : Chunk.t)
    : list string * list string * list Chroma.Metadata :=
  let '(ids, documents, metadatas) := acc in
  (ids ++ [Chunk.chunk_id chunk],
   documents ++ [Chunk.text chunk],
   metadatas ++ [chunk_metadata doc_metadata chunk]).

Definition save_chunks_to_db (chunks : list Chunk.t)
    (doc_metadata : Chroma.Metadata) (db : Collection)
    : result (Z * Collection) :=
  match chunks with
  | [] => Ok (0, db)
  | _ :: _ =>
      collection ← Chroma.get_or_create_collection db;
      let '(ids, documents, metadatas) :=
        fold_left (prepare_step doc_metadata) chunks ([], [], []) in
      embeddings ← embed_documents documents;
      collection ← Chroma.add collection ids documents embeddings metadatas;
      Ok (Z.of_nat (length chunks), collection)
  end.

(** The [where_filter] of [query_collection]: [if filter_doc_id:] is true
    for a string that is neither [None] nor empty. *)
Definition where_filter_of (filter_doc_id : option string)
    : option Chroma.Where :=
  match filter_doc_id with
  | Some (String c s) => Some ("doc_id", Chroma.MStr (String c s))
  | Some EmptyString | None => None
  end.

Definition query_collection (query_text : string) (n_results : Z)
    (filter_doc_id : option string) (db : Collection)
    : result Chroma.QueryResult :=
  collection ← Chroma.get_or_create_collection db;
  query_embedding ← embed_query query_text;
  let where_filter := where_filter_of filter_doc_id in
  Chroma.query distance collection [query_embedding] n_results where_filter.

(** The [try] block returns [True]; any exception is turned into [False]
    and the collection is left as it was. *)
Definition delete_document_chunks (doc_id : string) (db : Collection)
    : bool * Collection :=
  match
    collection ← Chroma.get_or_create_collection db;
    Chroma.delete collection ("doc_id", Chroma.MStr doc_id)
  with
  | Ok db' => (true, db')
  | Raise _ => (false, db)
  end.

(** *** [core/retriever.py] *)

Definition context_separator : string :=
  Str.LF +:+ Str.LF +:+ "---" +:+ Str.LF +:+ Str.LF.

(** One pass of the loop of [get_context]: the block of the result at
    position [idx]. *)
Definition context_part (distances : list Q) (idx : nat) (text : string)
    (metadata : Chroma.Metadata) : string :=
  let page_number :=
    default "Unknown" (Chroma.mvalue_str <$> metadata !! "page_number") in
  let filename :=
    default "Unknown" (Chroma.mvalue_str <$> metadata !! "filename") in
  let header := "[Source: " +:+ filename +:+ ", Page " +:+ page_number +:+ "]" in
  let header :=
    match distances !! idx with
    | Some d =>
        header +:+ " (Relevance: " +:+ format_percent2 (1 - d) +:+ ")"
    | None => header
    end in
  header +:+ Str.LF +:+ text.

Definition context_parts (documents : list string)
    (metadatas : list Chroma.Metadata) (distances : list Q) : list string :=
  (fun '(idx, (text, metadata)) => context_part distances idx text metadata)
    <$> enumerate_from 0 (zip documents metadatas).

(** [l[0]] *)
Definition first {A} (l : list A) : result A :=
  match l with
  | x :: _ => Ok x
  | [] => Raise (Exn "IndexError" "list index out of range")
  end.

(** [d[key][0]] for a field whose value may be [None]. *)
Definition field0 {A} (field : option (list A)) : result A :=
  match field with
  | Some l => first l
  | None => Raise (Exn "TypeError" "'NoneType' object is not subscriptable")
  end.

Definition format_results (results : Chroma.QueryResult) : result string :=
  match Chroma.documents results with
  | None | Some [] | Some ([] :: _) => Ok ""
  | Some (documents :: _) =>
      metadatas ← field0 (Chroma.metadatas results);
      distances ← field0 (Chroma.distances results);
      Ok (Str.join context_separator
            (context_parts documents metadatas distances))
  end.

Definition get_context (query : string) (doc_id : option string)
    (n_results : Z) (db : Collection) : result string :=
  results ← query_collection query n_results doc_id db;
  format_results results.

(** *** [core/qa_engine.py] *)

Definition SYSTEM_PROMPT : string :=
  "You are a helpful assistant. Answer the question ONLY using the provided context. If the answer isn't there, say you don't know. Always cite the page numbers used.".

Definition NO_INFORMATION : string :=
  "I don't have any relevant information to answer this question. Please make sure documents have been ingested into the system.".

Definition UNABLE : string :=
  "I was unable to generate a response. Please try again.".

Definition full_prompt (question context : string) : string :=
  SYSTEM_PROMPT +:+ Str.LF +:+ Str.LF +:+ "CONTEXT:" +:+ Str.LF +:+
  context +:+ Str.LF +:+ Str.LF +:+ "QUESTION: " +:+ question +:+
  Str.LF +:+ Str.LF +:+ "ANSWER:".

(** [not context or context.strip() == ""] *)
Definition no_context (context : string) : bool :=
  bool_decide (context = "") || bool_decide (Str.strip context = "").

(** [calls] is the list of the prompts sent to the generation service so
    far, the latest last. *)
Definition generate_answer (question context : string) (calls : list string)
    : string * list string :=
  if no_context context then (NO_INFORMATION, calls)
  else
    let prompt := full_prompt question context in
    let calls := calls ++ [prompt] in
    match generate_content prompt with
    | Ok (Some (String c s)) => (Str.strip (String c s), calls)
    | Ok (Some EmptyString) | Ok None => (UNABLE, calls)
    | Raise e => ("Error generating answer: " +:+ exn_msg e, calls)
    end.

(** *** [backend/main.py] *)

Record QueryRequest := {
  question : string;
  doc_id : option string
}.

Record QueryResponse := {
  answer : string;
  response_question : string;
  sources_used : Z
}.

Inductive http_result :=
| Response (r : QueryResponse)
| HTTPException (status_code : Z) (detail : string).

Definition query_documents (request : QueryRequest) (db : Collection)
    (calls : list string) : http_result * list string :=
  match get_context (question request) (doc_id request) 5 db with
  | Raise e =>
      (HTTPException 500 ("Error processing query: " +:+ exn_msg e), calls)
  | Ok context =>
      if no_context context then
        (Response {| answer := NO_INFORMATION;
                     response_question := question request;
                     sources_used := 0 |}, calls)
      else
        let sources_count :=
          match context with
          | EmptyString => 0
          | _ => Z.of_nat (Str.count context "---") + 1
          end in
        let '(answer, calls) :=
          generate_answer (question request) context calls in
        (Response {| answer := answer;
                     response_question := question request;
                     sources_used := sources_count |}, calls)
  end.

End pipeline.

(** ** The rest of the modules: the structured retrieval, the answer with
    history, the remote embedding function and the upload endpoint *)

(** One entry of ["chunks"] in the dict of [get_context_with_metadata];
    [metadata.get(key)] is [None] for a missing key. *)
Module ChunkData.

Record t := mk {
  text : string;
  page_number : option Chroma.mvalue;
  filename : option Chroma.mvalue;
  doc_id : option Chroma.mvalue;
  relevance : option Q
}.

End ChunkData.

(** The dict [get_context_with_metadata] returns. *)
Module ContextData.

Record t := mk {
  context : string;
  chunks : list ChunkData.t;
  total_chunks : Z
}.

End ContextData.

(** One turn of the chat history: a dict read with [turn.get(key, '')]. *)
Abbreviation Turn := (gmap string string).

(** [l[-n:]] for a positive [n]. *)
Definition last_items {A} (n : nat) (l : list A) : list A :=
  drop (length l - n) l.

(** [s.lower()] on one character, for the code points below 256. *)
Definition lower_char (c : ascii) : ascii :=
  let n := nat_of_ascii c in
  if ((65 <=? n)%nat && (n <=? 90)%nat)
     || ((192 <=? n)%nat && (n <=? 222)%nat && negb (n =? 215)%nat)
  then ascii_of_nat (n + 32) else c.

Fixpoint lower (s : string) : string :=
  match s with
  | EmptyString => EmptyString
  | String c s' => String (lower_char c) (lower s')
  end.

(** [s.endswith(suffix)] *)
Definition endswith (s suffix : string) : bool :=
  String.prefix (String.rev suffix) (String.rev s).

(** [s.split(sep)] for a separator of one character: the pieces between
    the occurrences of [sep]; the head of the result is the piece under
    construction. *)
Fixpoint split_char (sep : ascii) (s : string) : list string :=
  match s with
  | EmptyString => [EmptyString]
  | String c s' =>
      if Ascii.eqb c sep then EmptyString :: split_char sep s'
      else
        match split_char sep s' with
        | [] => [String c EmptyString]
        | p :: ps => String c p :: ps
        end
  end.

(** [[tag.strip() for tag in tags.split(",") if tag.strip()] if tags else []] *)
Definition parse_tags (tags : string) : list string :=
  match tags with
  | EmptyString => []
  | _ =>
      omap (fun tag => if decide (Str.strip tag = "") then None
                       else Some (Str.strip tag))
        (split_char "," tags)
  end.

(** What [PdfReader(file_path)] does: it yields the pages, or raises
    [FileNotFoundError] or another exception, [msg] being [str(e)]. *)
Inductive reader_outcome :=
| ReaderPages (pages : list extract_text_outcome)
| ReaderNotFound (msg : string)
| ReaderError (msg : string).

(** [extract_pdf_pages] and [get_page_count] with the failures of the
    reader. *)
Definition extract_pdf_pages_of (file_path : string) (reader : reader_outcome)
    : result (list Page.t) :=
  match reader with
  | ReaderPages pages => Ok (extract_pdf_pages pages)
  | ReaderNotFound _ =>
      Raise (Exn "FileNotFoundError" ("PDF file not found: " +:+ file_path))
  | ReaderError msg =>
      Raise (Exn "Exception"
               ("Error reading PDF file '" +:+ file_path +:+ "': " +:+ msg))
  end.

Definition get_page_count_of (file_path : string) (reader : reader_outcome)
    : result Z :=
  match reader with
  | ReaderPages pages => Ok (get_page_count pages)
  | ReaderNotFound msg | ReaderError msg =>
      Raise (Exn "Exception"
               ("Error getting page count for '" +:+ file_path +:+ "': " +:+
                msg))
  end.

(** The response model of [/upload]. *)
Module UploadResponse.

Record t := mk {
  status : string;
  doc_id : string;
  filename : string;
  uploaded_at : Z;
  tags : list string;
  indexed_to_kb : bool;
  page_count : Z;
  chunks_count : Z
}.

End UploadResponse.

Inductive upload_result :=
| Uploaded (r : UploadResponse.t)
| UploadError (status_code : Z) (detail : string).

Section pipeline_rest.

Context {Emb : Type}.
Context (distance : Emb -> Emb -> Q).
Context (embed_documents : list string -> result (list Emb)).
Context (embed_query : string -> result Emb).
Context (generate_content : string -> result (option string)).

(** *** [core/retriever.py]: [get_context_with_metadata] *)




(** *** [core/qa_engine.py]: [generate_answer_with_history] *)

(** The [history_parts] of the last five turns. *)
Definition history_parts (chat_history : list Turn) : list string :=
  fold_left
    (fun parts (turn : Turn) =>
       (parts ++ ["User: " +:+ default "" (turn !! "question")])
       ++ ["Assistant: " +:+ default "" (turn !! "answer")])
    (last_items 5 chat_history) [].

Definition history_str (chat_history : option (list Turn)) : string :=
  match chat_history with
  | None | Some [] => ""
  | Some (turn :: turns) => Str.join Str.LF (history_parts (turn :: turns))
  end.

Definition full_prompt_with_history (question context : string)
    (chat_history : option (list Turn)) : string :=
  SYSTEM_PROMPT +:+ Str.LF +:+ Str.LF +:+ "CONTEXT:" +:+ Str.LF +:+
  context +:+ Str.LF +:+ Str.LF +:+
  match history_str chat_history with
  | EmptyString => ""
  | String c s =>
      "CONVERSATION HISTORY:" +:+ Str.LF +:+ String c s +:+ Str.LF
  end +:+
  Str.LF +:+ "CURRENT QUESTION: " +:+ question +:+
  Str.LF +:+ Str.LF +:+ "ANSWER:".

Definition generate_answer_with_history (question context : string)
    (chat_history : option (list Turn)) (calls : list string)
    : string * list string :=
  if no_context context then (NO_INFORMATION, calls)
  else
    let prompt := full_prompt_with_history question context chat_history in
    let calls := calls ++ [prompt] in
    match generate_content prompt with
    | Ok (Some (String c s)) => (Str.strip (String c s), calls)
    | Ok (Some EmptyString) | Ok None => (UNABLE, calls)
    | Raise e => ("Error generating answer: " +:+ exn_msg e, calls)
    end.

(** *** [Rag_Chatbot/core/storage.py]: the remote embedding function.
    [embed_content task_type content] is the call to the embedding
    service. *)

Context (embed_content : string -> string -> result Emb).

(** The loop of [GeminiEmbeddingFunction.__call__]; [embeddings] are the
    vectors gathered so far. *)
Fixpoint embed_each (input_texts : list string) (embeddings : list Emb)
    : result (list Emb) :=
  match input_texts with
  | [] => Ok embeddings
  | text :: rest =>
      embedding ← embed_content "retrieval_document" text;
      embed_each rest (embeddings ++ [embedding])
  end.

Definition GeminiEmbeddingFunction (input_texts : list string)
    : result (list Emb) :=
  embed_each input_texts [].

(** [save_chunks_to_db] and [query_collection] of that module differ from
    [core/storage.py] in the embedding calls only. *)
Definition gemini_save_chunks_to_db :=
  save_chunks_to_db GeminiEmbeddingFunction.

Definition gemini_query_collection :=
  query_collection distance (embed_content "retrieval_query").

(** *** [backend/main.py]: [/upload] *)

(** The components of a path: the pieces between slashes, without the
    empty ones and the single dots. *)
Definition path_parts (path : string) : list string :=
  filter (fun part => part <> "" /\ part <> ".") (split_char "/" path).

(** [str(DATA_DIR / filename)] for [DATA_DIR = Path("./data")]: an
    absolute [filename] replaces the directory, and exactly two leading
    slashes are kept. *)
Definition data_path (filename : string) : string :=
  match filename with
  | String "/" (String "/" (String "/" _)) =>
      "/" +:+ Str.join "/" (path_parts filename)
  | String "/" (String "/" _) => "//" +:+ Str.join "/" (path_parts filename)
  | String "/" _ => "/" +:+ Str.join "/" (path_parts filename)
  | _ => Str.join "/" ("data" :: path_parts filename)
  end.

(** The document metadata handed to [save_chunks_to_db]; of its keys only
    ["filename"] is read there, and the list under ["tags"] is left out of
    this dict of scalars. *)
Definition upload_metadata (doc_id : UUID.t) (filename : string)
    (page_count : Z) : Chroma.Metadata :=
  {[ "doc_id" := Chroma.MStr (UUID.str doc_id);
     "filename" := Chroma.MStr filename;
     "page_count" := Chroma.MInt page_count ]}.

(** The [try] block of [upload_document], an exception of which becomes
    the error 500; [None] stands for the [HTTPException] raised when no
    text could be extracted.  [doc_id] is the value of [uuid4()],
    [uploaded_at] the reading of the clock, [written] the outcome of
    writing the file to the data directory; the files of that directory
    are not part of the state, and removing the file is taken to succeed. *)
Definition ingest_upload (filename tags : string) (indexed_to_kb : bool)
    (doc_id : UUID.t) (uploaded_at : Z) (written : result unit)
    (reader : reader_outcome) (db : Chroma.Collection Emb)
    : result (option (UploadResponse.t * Chroma.Collection Emb)) :=
  let tag_list := parse_tags tags in
  let file_path := data_path filename in
  _ ← written;
  pages_data ← extract_pdf_pages_of file_path reader;
  match pages_data with
  | [] => Ok None
  | _ :: _ =>
      page_count ← get_page_count_of file_path reader;
      saved ←
        (if indexed_to_kb then
           chunks ← chunk_document pages_data doc_id 1000 200;
           save_chunks_to_db embed_documents chunks
             (upload_metadata doc_id filename page_count) db
         else Ok (0, db));
      Ok (Some
            (UploadResponse.mk "success" (UUID.str doc_id) filename
               uploaded_at tag_list indexed_to_kb page_count saved.1,
             saved.2))
  end.

Definition upload_document (filename tags : string) (indexed_to_kb : bool)
    (doc_id : UUID.t) (uploaded_at : Z) (written : result unit)
    (reader : reader_outcome) (db : Chroma.Collection Emb)
    : upload_result * Chroma.Collection Emb :=
  if negb (endswith (lower filename) ".pdf") then
    (UploadError 400 "Only PDF files are supported", db)
  else
    match ingest_upload filename tags indexed_to_kb doc_id uploaded_at
            written reader db with
    | Ok (Some (response, db')) => (Uploaded response, db')
    | Ok None => (UploadError 400 "No extractable text found in the PDF", db)
    | Raise e =>
        (UploadError 500 ("Error processing document: " +:+ exn_msg e), db)
    end.

End pipeline_rest.

(** ** Stand-ins for the external collaborators, used to run the pipeline
    on concrete inputs: an embedding is the length of the text, the
    distance of two embeddings is a tenth of their difference, and the
    generation service answers every prompt with the same text. *)

Module Fixture.

Definition distance (a b : Z) : Q := Z.abs (a - b) # 10.

Definition embed_documents (texts : list string) : result (list Z) :=
  Ok (map Str.len texts).

Definition embed_query (text : string) : result Z := Ok (Str.len text).

Definition generate_content (prompt : string) : result (option string) :=
  Ok (Some "See page 1.").

Definition empty_db : Chroma.Collection Z :=
  {| Chroma.online := true; Chroma.rows := ∅ |}.

Definition doc_metadata : Chroma.Metadata :=
  {[ "filename" := Chroma.MStr "report.pdf" ]}.

Definition doc : UUID.t := 7%N.

Definition chunk (page_number : Z) (idx : nat) (text : string) : Chunk.t :=
  Chunk.mk (format_chunk_id doc page_number idx) doc page_number text.

(** The collection after [chunks] were saved into the empty one. *)
Definition db_with (chunks : list Chunk.t) : Chroma.Collection Z :=
  match save_chunks_to_db embed_documents chunks doc_metadata empty_db with
  | Ok (_, db) => db
  | Raise _ => empty_db
  end.

Definition stored_text (db : Chroma.Collection Z) (id : string) : option string :=
  Chroma.document <$> Chroma.rows db !! id.

Definition old_chunk : Chunk.t := chunk 1 0 "old text".
Definition new_chunk : Chunk.t := chunk 1 0 "new text".
Definition dashes_chunk : Chunk.t := chunk 1 0 "a---b".
Definition two_chunks : list Chunk.t :=
  [chunk 1 0 "hello"; chunk 2 0 "hello world"].

Definition refusal (q : string) : QueryResponse :=
  {| answer := NO_INFORMATION; response_question := q; sources_used := 0 |}.

(** The embedding service of the remote embedding function. *)
Definition embed_content (task_type content : string) : result Z :=
  Ok (Str.len content).

Definition turn (n : string) : Turn :=
  {[ "question" := "question " +:+ n; "answer" := "answer " +:+ n ]}.

(** A reader of three pages, the second without text. *)
Definition reader_pages : list extract_text_outcome :=
  [Ok (Some "first page"); Ok None; Ok (Some " third page ")].

End Fixture.

(** ** Vocabulary of the statements *)

Section vocabulary.

Context {Emb : Type}.
Context (distance : Emb -> Emb -> Q).
Implicit Types (db : Chroma.Collection Emb) (chunks : list Chunk.t).
Implicit Types (hits : list (string * Chroma.Row Emb)).
Implicit Types (pages : list Page.t) (page : Page.t) (doc : UUID.t).
Implicit Types (sp self : TextSplitter.t).

(** The rows of the collection after a batch of chunks was added. *)
Definition rows_after doc_metadata chunks (embeddings : list Emb) db :=
  fold_left Chroma.add_row
    (Chroma.batch (Chunk.chunk_id <$> chunks) (Chunk.text <$> chunks)
       embeddings (chunk_metadata doc_metadata <$> chunks))
    (Chroma.rows db).

(** The [where] clause a document filter stands for. *)
Definition where_of (filter_doc_id : option string) : option Chroma.Where :=
  (fun f => ("doc_id", Chroma.MStr f)) <$> filter_doc_id.

(** The records of the collection that pass a [where] clause. *)
Definition matching db (where_ : option Chroma.Where) :=
  filter (fun r : string * Chroma.Row Emb =>
            Chroma.where_matches where_ (Chroma.metadata r.2))
    (map_to_list (Chroma.rows db)).

(** The result dict for the hits of a single query embedding. *)
Definition single_result (q : Emb) hits : Chroma.QueryResult :=
  {| Chroma.ids := [Chroma.hit_ids hits];
     Chroma.documents := Some [Chroma.hit_documents hits];
     Chroma.metadatas := Some [Chroma.hit_metadatas hits];
     Chroma.distances := Some [Chroma.hit_distances distance q hits] |}.

(** The citation header of a record: its file name and page number. *)
Definition citation_header (metadata : Chroma.Metadata) : string :=
  "[Source: " +:+
  default "Unknown" (Chroma.mvalue_str <$> metadata !! "filename") +:+
  ", Page " +:+
  default "Unknown" (Chroma.mvalue_str <$> metadata !! "page_number") +:+ "]".

(** The block of one hit: the header with the relevance [1 - distance] as
    a percentage, a line break, the chunk text. *)
Definition cited_block (q : Emb) (r : string * Chroma.Row Emb) : string :=
  (citation_header (Chroma.metadata r.2) +:+ " (Relevance: " +:+
   format_percent2 (1 - distance q (Chroma.embedding r.2)) +:+ ")") +:+
  Str.LF +:+ Chroma.document r.2.

(** What [finer] must be for a whitespace text to leave no chunk: either
    the split is the one into characters and a character is shorter than
    the chunk size, or the finer split leaves no chunk of a whitespace
    text. *)
Definition finer_drops_blank self (finer : option (string -> list string))
    (sep : string) : Prop :=
  match finer with
  | None => sep = "" /\ 1 < TextSplitter.chunk_size self
  | Some other => forall t, Str.blank t = true -> other t = []
  end.

(** A string without the character that separates the fields of a chunk
    identifier. *)
Fixpoint underscore_free (s : string) : bool :=
  match s with
  | EmptyString => true
  | String c s' => negb (Ascii.eqb c "_") && underscore_free s'
  end.

(** The chunks of one page, numbered from 0. *)
Definition page_chunks sp doc page : list Chunk.t :=
  (fun '(idx, text) =>
     Chunk.mk (format_chunk_id doc (Page.page_number page) idx) doc
       (Page.page_number page) text)
    <$> enumerate_from 0 (TextSplitter.split_text sp (Page.text page)).

End vocabulary.

Section vocabulary_rest.

(** [c in s] for a character. *)
Fixpoint has_char (c : ascii) (s : string) : bool :=
  match s with
  | EmptyString => false
  | String d s' => Ascii.eqb c d || has_char c s'
  end.

(** [t] is empty or starts with a character that does not occur in
    [sub]. *)
Definition head_outside (sub t : string) : Prop :=
  match t with
  | EmptyString => True
  | String d _ => has_char d sub = false
  end.

(** The number of non-overlapping runs of three dashes in a text. *)
Definition dash_runs (s : string) : nat := Str.count s "---".

(** A text without leading or trailing whitespace. *)
Definition trimmed (s : string) : Prop := Str.strip s = s.


(** The record [save_chunks_to_db] builds for a chunk and its vector. *)
Definition chunk_row {Emb : Type} (doc_metadata : Chroma.Metadata)
    (ce : Chunk.t * Emb) : string * Chroma.Row Emb :=
  (Chunk.chunk_id ce.1,
   {| Chroma.document := Chunk.text ce.1;
      Chroma.embedding := ce.2;
      Chroma.metadata := chunk_metadata doc_metadata ce.1 |}).

(** Empty, or starting with a character that is not whitespace. *)
Definition starts_clean (s : string) : Prop :=
  match s with
  | EmptyString => True
  | String c _ => Str.isspace c = false
  end.

(** The value of a decimal digit. *)
Definition digit_value (c : ascii) : option Z :=
  let n := Z.of_nat (nat_of_ascii c) in
  if (48 <=? n) && (n <=? 57) then Some (n - 48) else None.

(** Reads the decimal digits a text starts with: the number read ([None]
    when the text does not start with a digit) and the rest of the text. *)
Fixpoint read_digits (acc : option Z) (s : string) : option Z * string :=
  match s with
  | EmptyString => (acc, s)
  | String c s' =>
      match digit_value c with
      | Some d => read_digits (Some (default 0 acc * 10 + d)) s'
      | None => (acc, s)
      end
  end.

(** The hundredths a text [i.ab%] stands for: digits, a point, two digits
    and the percent sign. *)
Definition unsigned_percent (s : string) : option Z :=
  match read_digits None s with
  | (Some i, String "." (String a (String b (String "%" EmptyString)))) =>
      da ← digit_value a; db ← digit_value b; Some (i * 100 + da * 10 + db)
  | _ => None
  end.

(** The number a percentage with two decimals stands for, with or without
    a minus sign: ["87.65%"] stands for 87.65. *)
Definition percent_value (s : string) : option Q :=
  match unsigned_percent s with
  | Some h => Some (h # 100)
  | None =>
      match s with
      | String "-" s' => (fun h => (- h) # 100) <$> unsigned_percent s'
      | _ => None
      end
  end.

(** [p] is the relevance [x] as a percentage: a text with two decimals
    whose number is [x] times 100, rounded to the nearest hundredth. *)
Definition relevance_text (x : Q) (p : string) : Prop :=
  exists v, percent_value p = Some v /\
            (x * 100 - (1 # 200) <= v <= x * 100 + (1 # 200))%Q.

(** [block] cites the hit [r] of the query embedding [q]: the header with
    the file name and the page number of the record, the relevance
    [1 - distance] as a percentage, and the text of the record on the next
    line. *)
Definition cites {Emb : Type} (distance : Emb -> Emb -> Q) (q : Emb)
    (r : string * Chroma.Row Emb) (block : string) : Prop :=
  exists p,
    relevance_text (1 - distance q (Chroma.embedding r.2)) p /\
    block = (citation_header (Chroma.metadata r.2) +:+ " (Relevance: " +:+
             p +:+ ")") +:+ Str.LF +:+ Chroma.document r.2.

(** What [finer] must be for every chunk to have the property [P]. *)
Definition finer_bounded (P : string -> Prop)
    (finer : option (string -> list string)) (sep : string) : Prop :=
  match finer with
  | None => sep = ""
  | Some other => forall t, Forall P (other t)
  end.

End vocabulary_rest.

(** * Facts about the vector engine *)

Section engine_facts.

Context {Emb : Type}.
Implicit Types (m : gmap string (Chroma.Row Emb)) (db : Chroma.Collection Emb).

Lemma add_row_keeps m r i x :
  m !! i = Some x -> Chroma.add_row m r !! i = Some x.
Proof.
  intros Hi. unfold Chroma.add_row.
  destruct (m !! r.1) eqn:Hr; [done|].
  rewrite lookup_insert_ne; [done|]. intros Heq. rewrite Heq in Hr. congruence.
Qed.

Lemma add_rows_keep l m i x :
  m !! i = Some x -> fold_left Chroma.add_row l m !! i = Some x.
Proof.
  revert m. induction l as [|r l IH]; intros m Hi; simpl; [done|].
  apply IH. by apply add_row_keeps.
Qed.

Lemma add_rows_stored l m i :
  i ∈ l.*1 -> is_Some (fold_left Chroma.add_row l m !! i).
Proof.
  revert m. induction l as [|r l IH]; intros m; simpl.
  - by intros ?%elem_of_nil.
  - intros [Heq|Hin]%elem_of_cons; [subst i|by apply IH].
    assert (is_Some (Chroma.add_row m r !! r.1)) as [x Hx].
    { unfold Chroma.add_row. destruct (m !! r.1) as [x|] eqn:Hr.
      - by exists x.
      - exists r.2. by rewrite lookup_insert_eq. }
    exists x. by apply add_rows_keep.
Qed.

Lemma add_rows_present l m :
  (forall i, i ∈ l.*1 -> is_Some (m !! i)) -> fold_left Chroma.add_row l m = m.
Proof.
  induction l as [|r l IH]; intros Hall; simpl; [done|].
  assert (Chroma.add_row m r = m) as ->.
  { unfold Chroma.add_row. destruct (Hall r.1) as [x ->]; [|done].
    simpl. left. }
  apply IH. intros i Hi. apply Hall. simpl. by right.
Qed.

Lemma batch_ids (ids documents : list string) (embeddings : list Emb)
    (metadatas : list Chroma.Metadata) :
  length documents = length ids -> length embeddings = length ids ->
  length metadatas = length ids ->
  (Chroma.batch ids documents embeddings metadatas).*1 = ids.
Proof.
  revert documents embeddings metadatas.
  induction ids as [|i ids IH]; intros [|d ds] [|e es] [|x xs]; simpl;
    try done.
  intros ???. f_equal. apply IH; lia.
Qed.

End engine_facts.

(** * [core/storage.py] *)

Section storage_facts.

Context {Emb : Type}.
Context (distance : Emb -> Emb -> Q).
Context (embed_documents : list string -> result (list Emb)).
Context (embed_query : string -> result Emb).
Implicit Types (db : Chroma.Collection Emb) (chunks : list Chunk.t).

Lemma prepare_lists doc_metadata chunks ids documents metadatas :
  fold_left (prepare_step doc_metadata) chunks (ids, documents, metadatas)
  = (ids ++ (Chunk.chunk_id <$> chunks),
     documents ++ (Chunk.text <$> chunks),
     metadatas ++ (chunk_metadata doc_metadata <$> chunks)).
Proof.
  revert ids documents metadatas.
  induction chunks as [|c chunks IH]; intros ids documents metadatas; simpl.
  - by rewrite !app_nil_r.
  - rewrite IH, <-!app_assoc. done.
Qed.

(** When a save of a non-empty list succeeds. *)
Lemma save_ok chunks doc_metadata db embeddings :
  chunks <> [] ->
  Chroma.online db = true ->
  embed_documents (Chunk.text <$> chunks) = Ok embeddings ->
  length embeddings = length chunks ->
  NoDup (Chunk.chunk_id <$> chunks) ->
  save_chunks_to_db embed_documents chunks doc_metadata db
  = Ok (Z.of_nat (length chunks),
        {| Chroma.online := Chroma.online db;
           Chroma.rows := rows_after doc_metadata chunks embeddings db |}).
Proof.
  intros Hne Hon Hemb Hlen Hnd. unfold save_chunks_to_db.
  destruct chunks as [|c chunks]; [done|].
  unfold Chroma.get_or_create_collection. rewrite Hon. cbn [mbind result_bind].
  rewrite prepare_lists. cbn [app]. rewrite Hemb. cbn [mbind result_bind].
  unfold Chroma.add. rewrite Hon. cbn [negb].
  rewrite bool_decide_eq_false_2 by done.
  rewrite bool_decide_eq_true_2
    by (rewrite !length_fmap; auto).
  cbn [negb]. rewrite bool_decide_eq_true_2 by done. done.
Qed.

(** What a successful save did. *)
Lemma save_inv chunks doc_metadata db n db' :
  save_chunks_to_db embed_documents chunks doc_metadata db = Ok (n, db') ->
  (chunks = [] /\ n = 0 /\ db' = db) \/
  (chunks <> [] /\ n = Z.of_nat (length chunks) /\ Chroma.online db = true /\
   NoDup (Chunk.chunk_id <$> chunks) /\
   exists embeddings,
     embed_documents (Chunk.text <$> chunks) = Ok embeddings /\
     length embeddings = length chunks /\
     db' = {| Chroma.online := Chroma.online db;
              Chroma.rows := rows_after doc_metadata chunks embeddings db |}).
Proof.
  unfold save_chunks_to_db. destruct chunks as [|c chunks].
  { intros [= <- <-]. by left. }
  right. revert H. unfold Chroma.get_or_create_collection.
  destruct (Chroma.online db) eqn:Hon; cbn [mbind result_bind]; [|done].
  rewrite prepare_lists. cbn [app].
  destruct (embed_documents _) as [embeddings|] eqn:Hemb;
    cbn [mbind result_bind]; [|done].
  unfold Chroma.add. rewrite Hon. cbn [negb].
  rewrite bool_decide_eq_false_2 by done.
  case_bool_decide as Hlen; cbn [negb]; [|done].
  case_bool_decide as Hnd; cbn [negb]; [|done].
  cbn [mbind result_bind]. intros [= <- <-].
  rewrite !length_fmap in Hlen. destruct Hlen as (_ & Hlen & _).
  split; [done|]. split; [done|]. split; [done|]. split; [done|].
  by exists embeddings.
Qed.

(** C9: an empty chunk list gives 0 and the collection as it was; a save
    that goes through returns the number of input chunks, and a save of a
    non-empty list with distinct identifiers goes through whenever the
    storage is reachable and the embedding call returns one vector per
    chunk. *)
Theorem save_chunks_count doc_metadata db :
  save_chunks_to_db embed_documents [] doc_metadata db = Ok (0, db) /\
  (forall chunks n db',
     save_chunks_to_db embed_documents chunks doc_metadata db = Ok (n, db') ->
     n = Z.of_nat (length chunks)) /\
  (forall chunks embeddings,
     chunks <> [] ->
     Chroma.online db = true ->
     embed_documents (Chunk.text <$> chunks) = Ok embeddings ->
     length embeddings = length chunks ->
     NoDup (Chunk.chunk_id <$> chunks) ->
     exists db',
       save_chunks_to_db embed_documents chunks doc_metadata db
       = Ok (Z.of_nat (length chunks), db')).
Proof.
  split; [done|]. split.
  - intros chunks n db' [(-> & -> & _)|(_ & -> & _)]%save_inv; done.
  - intros chunks embeddings Hne Hon Hemb Hlen Hnd.
    eexists. by apply save_ok.
Qed.

(** C8: [delete_document_chunks] always returns a flag.  The flag is true
    exactly when the storage is reachable; then every record whose
    ["doc_id"] metadata is the given identifier is gone and every other
    record is kept.  When the engine raises the flag is false and the
    collection is as before.  Deleting again returns the same flag and
    changes nothing, and with no record of that document the collection is
    returned as it was. *)
Theorem delete_document_chunks_spec doc_id db :
  let w := ("doc_id", Chroma.MStr doc_id) in
  let out := delete_document_chunks doc_id db in
  out.1 = Chroma.online db /\
  Chroma.online out.2 = Chroma.online db /\
  (out.1 = true ->
   forall i, Chroma.rows out.2 !! i
             = r ← Chroma.rows db !! i;
               if Chroma.where_matches (Some w) (Chroma.metadata r)
               then None else Some r) /\
  (forall e,
     (collection ← Chroma.get_or_create_collection db;
      Chroma.delete collection w) = Raise e ->
     out = (false, db)) /\
  delete_document_chunks doc_id out.2 = out /\
  (Chroma.online db = true ->
   (forall i r, Chroma.rows db !! i = Some r ->
                Chroma.metadata r !! "doc_id" <> Some (Chroma.MStr doc_id)) ->
   out = (true, db)).
Proof.
  intros w out. subst out. unfold delete_document_chunks.
  unfold Chroma.get_or_create_collection, Chroma.delete.
  destruct db as [on rws]. destruct on; cbn.
  - split; [done|]. split; [done|]. split; [|split; [done|split]].
    + intros _ i. rewrite map_lookup_filter.
      destruct (rws !! i) as [r|]; cbn; [|done].
      destruct (bool_decide _); cbn; by rewrite ?option_guard_True, ?option_guard_False by auto.
    + do 2 f_equal. apply map_eq. intros i.
      rewrite !map_lookup_filter.
      destruct (rws !! i) as [r|]; cbn; [|done].
      destruct (bool_decide _) eqn:Hd; cbn.
      * by rewrite option_guard_False by auto.
      * rewrite option_guard_True by auto. cbn. rewrite Hd. cbn.
        by rewrite option_guard_True by auto.
    + intros _ Hno. do 2 f_equal. apply map_filter_id.
      intros i r Hi. cbn. apply negb_prop_intro. intros Hm.
      apply bool_decide_unpack in Hm. by apply (Hno i r).
  - split; [done|]. split; [done|]. split; [done|]. done.
Qed.

End storage_facts.

(** * [query_collection] *)

Section query_facts.

Context {Emb : Type}.
Context (distance : Emb -> Emb -> Q).
Context (embed_query : string -> result Emb).
Implicit Types (db : Chroma.Collection Emb) (hits : list (string * Chroma.Row Emb)).

Global Instance closer_total q : Total (Chroma.closer distance q).
Proof.
  intros a b. unfold Chroma.closer.
  destruct (Qlt_le_dec (distance q (Chroma.embedding a.2))
              (distance q (Chroma.embedding b.2))) as [Hlt|Hle].
  - left. apply Is_true_true, Qle_bool_iff. by apply Qlt_le_weak.
  - right. by apply Is_true_true, Qle_bool_iff.
Qed.

Global Instance closer_trans q : Transitive (Chroma.closer distance q).
Proof.
  intros a b c. unfold Chroma.closer.
  rewrite !Is_true_true, !Qle_bool_iff. apply Qle_trans.
Qed.

Lemma StronglySorted_take {A} (R : relation A) (l : list A) n :
  StronglySorted R l -> StronglySorted R (take n l).
Proof.
  intros Hl. revert n. induction Hl as [|x l Hl IH Hx]; intros [|n]; simpl;
    try constructor; auto.
  by apply Forall_take.
Qed.

Lemma nearest_sorted db q n where_ :
  StronglySorted Qle
    (Chroma.hit_distances distance q (Chroma.nearest distance db q n where_)).
Proof.
  unfold Chroma.hit_distances, Chroma.nearest.
  apply (StronglySorted_fmap _ (Chroma.closer distance q)).
  - intros a b. unfold Chroma.closer. by rewrite Is_true_true, Qle_bool_iff.
  - apply StronglySorted_take, StronglySorted_merge_sort; apply _.
Qed.

Lemma nearest_length db q n where_ :
  length (Chroma.nearest distance db q n where_)
  = Nat.min (Z.to_nat n) (length (matching db where_)).
Proof.
  unfold Chroma.nearest. rewrite length_take.
  by rewrite (Permutation_length (merge_sort_Permutation _ _)).
Qed.

Lemma nearest_matching db q n where_ r :
  r ∈ Chroma.nearest distance db q n where_ -> r ∈ matching db where_.
Proof.
  unfold Chroma.nearest. intros Hr%subseteq_take.
  by rewrite merge_sort_Permutation in Hr.
Qed.

Lemma matching_spec db where_ i x :
  (i, x) ∈ matching db where_ <->
  Chroma.rows db !! i = Some x /\
  Chroma.where_matches where_ (Chroma.metadata x) = true.
Proof.
  unfold matching. rewrite list_elem_of_filter, elem_of_map_to_list. cbn.
  rewrite Is_true_true. tauto.
Qed.

(** When the query goes through, and what it returns. *)
Lemma query_collection_ok query_text n_results filter_doc_id db e :
  Chroma.online db = true ->
  embed_query query_text = Ok e ->
  0 < n_results ->
  query_collection distance embed_query query_text n_results filter_doc_id db
  = Ok (single_result distance e
          (Chroma.nearest distance db e n_results
             (where_filter_of filter_doc_id))).
Proof.
  intros Hon He Hn. unfold query_collection, Chroma.get_or_create_collection.
  rewrite Hon. cbn. rewrite He. cbn. unfold Chroma.query. rewrite Hon. cbn.
  by destruct (Z.leb_spec n_results 0) as [?|_]; [lia|].
Qed.

Lemma query_collection_inv query_text n_results filter_doc_id db results :
  query_collection distance embed_query query_text n_results filter_doc_id db
  = Ok results ->
  exists e,
    Chroma.online db = true /\ embed_query query_text = Ok e /\
    0 < n_results /\
    results = single_result distance e
                (Chroma.nearest distance db e n_results
                   (where_filter_of filter_doc_id)).
Proof.
  unfold query_collection, Chroma.get_or_create_collection.
  destruct (Chroma.online db) eqn:Hon; cbn; [|done].
  destruct (embed_query query_text) as [e|] eqn:He; cbn; [|done].
  unfold Chroma.query. rewrite Hon. cbn.
  destruct (Z.leb_spec n_results 0) as [?|?]; [done|].
  intros [= <-]. by exists e.
Qed.

Lemma where_filter_of_supplied filter_doc_id :
  filter_doc_id <> Some "" -> where_filter_of filter_doc_id = where_of filter_doc_id.
Proof. by destruct filter_doc_id as [[|c f]|]. Qed.

Lemma matching_all db : matching db None = map_to_list (Chroma.rows db).
Proof.
  unfold matching. induction (map_to_list (Chroma.rows db)) as [|r l IH]; [done|].
  rewrite filter_cons_True by done. by rewrite IH.
Qed.

(** C10: the empty string as the document filter is the same call as no
    filter, and the search then runs over the whole collection: the engine
    query is made without a [where] clause, and a query that goes through
    returns [min n_results n] hits for a collection of [n] records,
    whatever their document, in non-decreasing distance; each hit is a
    stored record, and every stored record is a hit when the collection
    holds no more than [n_results] records. *)
Theorem empty_filter_is_no_filter query_text n_results db :
  query_collection distance embed_query query_text n_results (Some "") db
  = query_collection distance embed_query query_text n_results None db /\
  query_collection distance embed_query query_text n_results (Some "") db
  = (collection ← Chroma.get_or_create_collection db;
     query_embedding ← embed_query query_text;
     Chroma.query distance collection [query_embedding] n_results None) /\
  (forall e,
     Chroma.online db = true ->
     embed_query query_text = Ok e ->
     0 < n_results ->
     exists hits,
       query_collection distance embed_query query_text n_results (Some "") db
       = Ok (single_result distance e hits) /\
       length hits = Nat.min (Z.to_nat n_results) (size (Chroma.rows db)) /\
       (forall i r, (i, r) ∈ hits -> Chroma.rows db !! i = Some r) /\
       ((size (Chroma.rows db) <= Z.to_nat n_results)%nat ->
        forall i r, Chroma.rows db !! i = Some r -> (i, r) ∈ hits) /\
       StronglySorted Qle (Chroma.hit_distances distance e hits)).
Proof.
  split; [reflexivity|]. split; [reflexivity|].
  intros e Hon He Hn. exists (Chroma.nearest distance db e n_results None).
  split; [by apply (query_collection_ok _ _ (Some ""))|].
  split; [|split; [|split]].
  - by rewrite nearest_length, matching_all, length_map_to_list.
  - by intros i r [Hi _]%nearest_matching%matching_spec.
  - intros Hsize i r Hi. unfold Chroma.nearest. rewrite take_ge.
    + rewrite merge_sort_Permutation. by apply matching_spec.
    + rewrite (Permutation_length (merge_sort_Permutation _ _)).
      fold (matching db None). rewrite matching_all, length_map_to_list. lia.
  - apply nearest_sorted.
Qed.

(** C2, as the code has it: for a positive [n_results] and a filter that
    is absent or a non-empty string, the query returns the hits of the
    single query embedding; each hit is a stored record, with the filter's
    ["doc_id"] when a filter is given; there are [min n_results m] hits
    for [m] matching records, none when nothing matches; the distances
    are in non-decreasing order. *)
Theorem query_collection_ranked query_text n_results filter_doc_id db e :
  Chroma.online db = true ->
  embed_query query_text = Ok e ->
  0 < n_results ->
  filter_doc_id <> Some "" ->
  exists hits,
    query_collection distance embed_query query_text n_results filter_doc_id db
    = Ok (single_result distance e hits) /\
    (forall i r, (i, r) ∈ hits ->
       Chroma.rows db !! i = Some r /\
       forall f, filter_doc_id = Some f ->
                 Chroma.metadata r !! "doc_id" = Some (Chroma.MStr f)) /\
    length hits
    = Nat.min (Z.to_nat n_results)
        (length (matching db (where_of filter_doc_id))) /\
    Z.of_nat (length hits) <= n_results /\
    StronglySorted Qle (Chroma.hit_distances distance e hits) /\
    (matching db (where_of filter_doc_id) = [] -> hits = []).
Proof.
  intros Hon He Hn Hf.
  exists (Chroma.nearest distance db e n_results (where_of filter_doc_id)).
  split.
  { rewrite <-where_filter_of_supplied by done. by apply query_collection_ok. }
  split; [|split; [|split; [|split]]].
  - intros i r [Hi Hm]%nearest_matching%matching_spec. split; [done|].
    intros f ->. cbn in Hm. by apply bool_decide_eq_true in Hm.
  - apply nearest_length.
  - rewrite nearest_length. lia.
  - apply nearest_sorted.
  - intros Hnone. apply length_zero_iff_nil. rewrite nearest_length, Hnone.
    cbn. lia.
Qed.

End query_facts.

(** * Facts about the string primitives *)

Section string_facts.

Implicit Types (s t sep : string) (l : list string).

Lemma append_cons c s t : String c s +:+ t = String c (s +:+ t).
Proof. reflexivity. Qed.

Lemma append_nil_l s : "" +:+ s = s.
Proof. reflexivity. Qed.

Lemma append_nil_inv s t : s +:+ t = "" -> s = "" /\ t = "".
Proof. destruct s; [done|]. rewrite append_cons. discriminate. Qed.

Lemma append_nil_r s : s +:+ "" = s.
Proof. induction s; [done|]. rewrite append_cons. congruence. Qed.

Lemma append_assoc s t u : (s +:+ t) +:+ u = s +:+ t +:+ u.
Proof. induction s; [done|]. rewrite !append_cons. congruence. Qed.

Lemma len_append s t : Str.len (s +:+ t) = Str.len s + Str.len t.
Proof.
  unfold Str.len. induction s; [done|]. rewrite append_cons.
  simpl String.length. rewrite !Nat2Z.inj_succ. lia.
Qed.

Lemma join_head_nil sep s l : Str.join sep (s :: l) = "" -> s = "".
Proof.
  simpl. destruct l; [done|]. by intros [? _]%append_nil_inv.
Qed.

Lemma rstrip_nil_blank s : Str.rstrip s = "" <-> Str.blank s = true.
Proof.
  induction s as [|c s IH]; simpl; [done|].
  destruct (Str.rstrip s) eqn:Hr.
  - destruct (Str.isspace c); simpl; [tauto|].
    split; discriminate.
  - split; [discriminate|]. intros [_ Hb]%andb_true_iff.
    apply IH in Hb. discriminate.
Qed.

Lemma lstrip_blank s : Str.blank (Str.lstrip s) = Str.blank s.
Proof.
  induction s as [|c s IH]; simpl; [done|].
  destruct (Str.isspace c) eqn:Hc; simpl; [done|]. by rewrite Hc.
Qed.

Lemma strip_nil_blank s : Str.strip s = "" <-> Str.blank s = true.
Proof. unfold Str.strip. by rewrite rstrip_nil_blank, lstrip_blank. Qed.

Lemma blank_append s t : Str.blank (s +:+ t) = Str.blank s && Str.blank t.
Proof.
  induction s as [|c s IH]; [done|]. rewrite append_cons. simpl.
  rewrite IH. by rewrite andb_assoc.
Qed.

Lemma no_context_blank context : no_context context = Str.blank context.
Proof.
  unfold no_context. apply eq_true_iff_eq.
  rewrite orb_true_iff, !bool_decide_eq_true, strip_nil_blank.
  split; [intros [->|]; done|auto].
Qed.

(** The integer [format_percent2] prints is within one half of one
    hundredth of a percent of [x] times 100. *)
Lemma round_half_even_close q :
  (q - (1 # 2) <= inject_Z (round_half_even q) <= q + (1 # 2))%Q.
Proof.
  unfold round_half_even.
  pose proof (Qfloor_le q) as Hle. pose proof (Qlt_floor q) as Hlt.
  rewrite inject_Z_plus in Hlt. change (inject_Z 1) with 1%Q in Hlt.
  destruct (Qcompare_spec (q - inject_Z (Qfloor q)) (1 # 2)) as [Heq|Hc|Hc].
  - destruct (Z.even (Qfloor q)); rewrite ?inject_Z_plus;
      change (inject_Z 1) with 1%Q; lra.
  - lra.
  - rewrite inject_Z_plus. change (inject_Z 1) with 1%Q. lra.
Qed.

Example format_percent2_samples :
  format_percent2 (8765 # 10000) = "87.65%" /\
  format_percent2 (1 # 1) = "100.00%" /\
  format_percent2 (1 # 8) = "12.50%" /\
  format_percent2 (12345 # 1000000) = "1.23%" /\
  format_percent2 (- (1 # 3)) = "-33.33%".
Proof. repeat split; vm_compute; reflexivity. Qed.

End string_facts.

(** * The relevance of a citation, read back as a number *)

Section percent_facts.

Lemma digit_value_char (d : N) :
  (d < 10)%N -> digit_value (pretty_N_char d) = Some (Z.of_N d).
Proof.
  intros Hd. rewrite <-(N2Nat.id d). assert (N.to_nat d < 10)%nat as H by lia.
  revert H. generalize (N.to_nat d). intros n Hn.
  do 10 (destruct n as [|n]; [reflexivity|]). lia.
Qed.

Lemma read_digits_go (x : N) s :
  (0 < x)%N ->
  read_digits None (pretty_N_go x s) = read_digits (Some (Z.of_N x)) s.
Proof.
  revert s. induction (N.lt_wf_0 x) as [x _ IH]; intros s Hx.
  rewrite pretty_N_go_step by lia.
  assert (x `div` 10 < x)%N as Hlt by (apply N.div_lt; lia).
  assert (Z.of_N x = Z.of_N (x `div` 10) * 10 + Z.of_N (x `mod` 10)) as Hx10.
  { pose proof (N.div_mod x 10 ltac:(lia)). lia. }
  destruct (decide (x `div` 10 = 0)%N) as [H0|H0].
  - rewrite H0, pretty_N_go_0. cbn [read_digits].
    rewrite digit_value_char by (apply N.mod_lt; lia).
    rewrite Hx10, H0. done.
  - rewrite IH by (done || by apply N.neq_0_lt_0). cbn [read_digits].
    rewrite digit_value_char by (apply N.mod_lt; lia).
    cbn [default]. by rewrite Hx10.
Qed.

Lemma pretty_N_go_app (x : N) s t :
  pretty_N_go x s +:+ t = pretty_N_go x (s +:+ t).
Proof.
  revert s. induction (N.lt_wf_0 x) as [x _ IH]; intros s.
  destruct (decide (x = 0%N)) as [->|Hx]; [by rewrite !pretty_N_go_0|].
  rewrite (pretty_N_go_step x s), (pretty_N_go_step x (s +:+ t)) by lia.
  rewrite IH by (apply N.div_lt; lia). reflexivity.
Qed.

Lemma read_digits_pretty (i : Z) rest :
  0 <= i ->
  read_digits None (pretty i +:+ rest) = read_digits (Some i) rest.
Proof.
  intros Hi. destruct i as [|p|p]; [done| |lia].
  change (pretty (Z.pos p)) with (pretty (N.pos p)).
  unfold pretty, pretty_N. rewrite decide_False by done.
  rewrite pretty_N_go_app, append_nil_l, read_digits_go by lia. done.
Qed.

Lemma two_digits_chars (m : Z) :
  0 <= m < 100 ->
  exists a b,
    two_digits m +:+ "%" = String a (String b "%") /\
    digit_value a = Some (m / 10) /\ digit_value b = Some (m mod 10).
Proof.
  intros Hm. rewrite <-(Z2Nat.id m) by lia.
  assert (Z.to_nat m < 100)%nat as H by lia.
  revert H. generalize (Z.to_nat m). intros n Hn.
  do 100 (destruct n as [|n];
          [eexists _, _; split; [vm_compute; reflexivity|split; reflexivity]|]).
  lia.
Qed.

Lemma unsigned_percent_format (i m : Z) :
  0 <= i -> 0 <= m < 100 ->
  unsigned_percent (pretty i +:+ "." +:+ two_digits m +:+ "%")
  = Some (i * 100 + m).
Proof.
  intros Hi Hm. unfold unsigned_percent. rewrite read_digits_pretty by done.
  destruct (two_digits_chars m Hm) as (a & b & -> & Ha & Hb).
  rewrite append_cons, append_nil_l. cbn [read_digits].
  change (digit_value ".") with (@None Z). cbv beta iota.
  rewrite Ha, Hb. cbn. f_equal. rewrite (Z.div_mod m 10) at 3 by lia. lia.
Qed.

Lemma round_half_even_sign q :
  ((q < 0)%Q -> round_half_even q <= 0) /\
  ((0 <= q)%Q -> 0 <= round_half_even q).
Proof.
  unfold round_half_even. pose proof (Qfloor_le q) as Hle.
  split; intros Hq.
  - assert (Qfloor q < 0) as Hf.
    { apply Z.nle_gt. intros H0. apply (Qle_not_lt 0 q); [|done].
      apply Qle_trans with (inject_Z (Qfloor q)); [|done].
      change 0%Q with (inject_Z 0). by rewrite <-Zle_Qle. }
    repeat case_match; lia.
  - assert (0 <= Qfloor q) as Hf.
    { change 0 with (Qfloor 0). by apply Qfloor_resp_le. }
    repeat case_match; lia.
Qed.

Lemma percent_value_format x :
  percent_value (format_percent2 x) = Some (round_half_even (x * 10000) # 100).
Proof.
  unfold format_percent2, percent_value.
  set (r := round_half_even (x * 10000)).
  pose proof (round_half_even_sign (x * 10000)) as [Hneg Hpos]. fold r in Hneg, Hpos.
  assert (0 <= Z.abs r) as Habs by lia.
  assert (0 <= Z.abs r / 100) as Hdiv by (apply Z.div_pos; lia).
  assert (0 <= Z.abs r mod 100 < 100) as Hmod by (apply Z.mod_pos_bound; lia).
  assert (Z.abs r / 100 * 100 + Z.abs r mod 100 = Z.abs r) as Hsum.
  { rewrite (Z.div_mod (Z.abs r) 100) at 3 by lia. lia. }
  destruct (Qlt_le_dec x 0) as [Hx|Hx].
  - rewrite append_cons, append_nil_l.
    assert (unsigned_percent
              (String "-" (pretty (Z.abs r / 100) +:+ "." +:+
                           two_digits (Z.abs r mod 100) +:+ "%")) = None) as ->
      by done.
    rewrite unsigned_percent_format by done. cbn. rewrite Hsum.
    do 2 f_equal. assert (r <= 0); [|lia]. apply Hneg. lra.
  - rewrite append_nil_l, unsigned_percent_format by done. rewrite Hsum.
    do 2 f_equal. assert (0 <= r); [|lia]. apply Hpos. lra.
Qed.

Lemma format_percent2_relevance x : relevance_text x (format_percent2 x).
Proof.
  exists (round_half_even (x * 10000) # 100). split; [apply percent_value_format|].
  pose proof (round_half_even_close (x * 10000)) as Hclose.
  assert (round_half_even (x * 10000) # 100
          == inject_Z (round_half_even (x * 10000)) * (1 # 100))%Q as ->.
  { unfold Qeq. cbn. lia. }
  lra.
Qed.

End percent_facts.

(** * [core/retriever.py], [core/qa_engine.py] and the [/query] endpoint *)

Section retrieval_facts.

Context {Emb : Type}.
Context (distance : Emb -> Emb -> Q).
Context (embed_query : string -> result Emb).
Context (generate_content : string -> result (option string)).
Implicit Types (db : Chroma.Collection Emb) (hits : list (string * Chroma.Row Emb)).

Lemma context_parts_from q hits (seen : list Q) :
  (fun '(idx, (text, metadata)) =>
     context_part (seen ++ Chroma.hit_distances distance q hits)
       idx text metadata)
    <$> enumerate_from (length seen)
          (zip (Chroma.hit_documents hits) (Chroma.hit_metadatas hits))
  = cited_block distance q <$> hits.
Proof.
  revert seen. induction hits as [|r hits IH]; intros seen; [done|].
  cbn [Chroma.hit_documents Chroma.hit_metadatas Chroma.hit_distances
       fmap list_fmap zip zip_with enumerate_from].
  f_equal.
  - unfold context_part, cited_block, citation_header.
    by rewrite list_lookup_middle.
  - specialize (IH (seen ++ [distance q (Chroma.embedding r.2)])).
    rewrite <-app_assoc, length_app, Nat.add_1_r in IH. apply IH.
Qed.

Lemma context_parts_hits q hits :
  context_parts (Chroma.hit_documents hits) (Chroma.hit_metadatas hits)
    (Chroma.hit_distances distance q hits)
  = cited_block distance q <$> hits.
Proof. apply (context_parts_from q hits []). Qed.

Lemma cited_block_nonempty q r : cited_block distance q r <> "".
Proof.
  unfold cited_block. intros [H _]%append_nil_inv.
  apply append_nil_inv in H as [H _]. unfold citation_header in H.
  by apply append_nil_inv in H as [H _].
Qed.

Lemma format_single_result q hits :
  format_results (single_result distance q hits)
  = Ok (Str.join context_separator (cited_block distance q <$> hits)).
Proof.
  unfold format_results, single_result. cbn [Chroma.documents].
  destruct hits as [|r hits]; [done|].
  change (Chroma.hit_documents (r :: hits))
    with (Chroma.document r.2 :: Chroma.hit_documents hits).
  cbn [Chroma.metadatas Chroma.distances field0 first mbind result_bind].
  change (Chroma.document r.2 :: Chroma.hit_documents hits)
    with (Chroma.hit_documents (r :: hits)).
  by rewrite context_parts_hits.
Qed.

(** C3: when the similarity query raises, so does [get_context]; when it
    returns, its result holds the ranked hits of the embedded query and
    [get_context] returns one block per hit, in ranked order, joined by
    the delimiter line.  The block of a hit is the header with the file
    name and the page number of the record, followed by the relevance: a
    percentage with two decimals whose number is [1 - distance] times 100
    to the nearest hundredth; the text of the record is on the next line.
    The context is the empty string exactly when there is no hit. *)
Theorem get_context_spec query doc_id n_results db :
  match query_collection distance embed_query query n_results doc_id db with
  | Raise e =>
      get_context distance embed_query query doc_id n_results db = Raise e
  | Ok results =>
      exists q hits blocks,
        embed_query query = Ok q /\
        results = single_result distance q hits /\
        hits = Chroma.nearest distance db q n_results (where_filter_of doc_id) /\
        Forall2 (cites distance q) hits blocks /\
        blocks = cited_block distance q <$> hits /\
        get_context distance embed_query query doc_id n_results db
        = Ok (Str.join context_separator blocks) /\
        (get_context distance embed_query query doc_id n_results db = Ok ""
         <-> hits = [])
  end.
Proof.
  unfold get_context.
  destruct (query_collection _ _ _ _ _ _) as [results|e] eqn:Hq; [|done].
  apply query_collection_inv in Hq as (q & _ & Hemb & _ & ->).
  eexists q, _, _. split; [done|]. split; [done|]. split; [done|].
  cbn [mbind result_bind]. rewrite format_single_result.
  split; [|split; [done|split; [done|]]].
  - apply Forall2_fmap_r, Forall_Forall2_diag, Forall_forall. intros r _.
    eexists. split; [apply format_percent2_relevance|done].
  - destruct (Chroma.nearest _ _ _ _ _) as [|r hits]; [done|].
    split; [|done]. intros [= H]. apply join_head_nil in H.
    by apply cited_block_nonempty in H.
Qed.

Lemma get_context_nothing query doc_id db e :
  Chroma.online db = true ->
  embed_query query = Ok e ->
  matching db (where_filter_of doc_id) = [] ->
  get_context distance embed_query query doc_id 5 db = Ok "".
Proof.
  intros Hon He Hnone. unfold get_context.
  rewrite (query_collection_ok _ _ _ _ _ _ e) by done. cbn [mbind result_bind].
  rewrite format_single_result.
  assert (Chroma.nearest distance db e 5 (where_filter_of doc_id) = []) as ->;
    [|done].
  apply length_zero_iff_nil. rewrite nearest_length, Hnone. cbn. lia.
Qed.

(** C4: with an empty or whitespace-only context [generate_answer] returns
    the refusal message and sends nothing to the generation service; and a
    query for which no stored record passes the filter is answered with
    that message, a source count of 0 and no call to the service. *)
Theorem no_context_refusal :
  (forall question context calls,
     context = "" \/ Str.blank context = true ->
     generate_answer generate_content question context calls
     = (NO_INFORMATION, calls)) /\
  (forall request db calls e,
     Chroma.online db = true ->
     embed_query (question request) = Ok e ->
     matching db (where_filter_of (doc_id request)) = [] ->
     query_documents distance embed_query generate_content request db calls
     = (Response {| answer := NO_INFORMATION;
                    response_question := question request;
                    sources_used := 0 |}, calls)).
Proof.
  split.
  - intros question context calls Hctx. unfold generate_answer.
    rewrite no_context_blank.
    by destruct Hctx as [->| ->].
  - intros request db calls e Hon He Hnone. unfold query_documents.
    by rewrite (get_context_nothing _ _ _ e).
Qed.

(** What the endpoint reports for a context that is not blank: the number
    of occurrences of three dashes in the context, plus one. *)
Lemma query_documents_sources request db calls context :
  get_context distance embed_query (question request) (doc_id request) 5 db
  = Ok context ->
  no_context context = false ->
  exists answer calls',
    query_documents distance embed_query generate_content request db calls
    = (Response {| answer := answer;
                   response_question := question request;
                   sources_used := Z.of_nat (Str.count context "---") + 1 |},
       calls').
Proof.
  intros Hctx Hsome. unfold query_documents. rewrite Hctx, Hsome.
  destruct (generate_answer _ _ _ _) as [answer calls'].
  exists answer, calls'. destruct context; [done|done].
Qed.

(** A failing retrieval becomes the HTTP error 500 and nothing is sent to
    the generation service. *)
Lemma query_documents_error request db calls e :
  get_context distance embed_query (question request) (doc_id request) 5 db
  = Raise e ->
  query_documents distance embed_query generate_content request db calls
  = (HTTPException 500 ("Error processing query: " +:+ exn_msg e), calls).
Proof. intros Hctx. unfold query_documents. by rewrite Hctx. Qed.

End retrieval_facts.

(** * The recursive character splitter *)

Section splitter_facts.

Implicit Types (s t text sep : string) (l splits : list string).
Implicit Types (self : TextSplitter.t).

Lemma join_empty_cons s l : Str.join "" (s :: l) = s +:+ Str.join "" l.
Proof.
  simpl. destruct l; [by rewrite append_nil_r|]. by rewrite append_nil_l.
Qed.

Lemma join_empty_app l1 l2 :
  Str.join "" (l1 ++ l2) = Str.join "" l1 +:+ Str.join "" l2.
Proof.
  induction l1 as [|s l1 IH]; [done|].
  rewrite <-app_comm_cons, !join_empty_cons, IH. by rewrite append_assoc.
Qed.

Lemma chars_join text : Str.join "" (Str.chars text) = text.
Proof.
  induction text as [|c text IH]; [done|].
  cbn [Str.chars]. rewrite join_empty_cons, IH. done.
Qed.

Lemma cut_before_join sep text skip :
  Str.join "" (Str.cut_before sep text skip) = text.
Proof.
  revert skip. induction text as [|c text IH]; intros skip; [done|].
  cbn [Str.cut_before].
  set (boundary := match skip with O => String.prefix sep _ | S _ => false end).
  set (skip' := if boundary then _ else _).
  specialize (IH skip'). destruct (Str.cut_before sep text skip') as [|p ps].
  - by rewrite <-IH.
  - rewrite join_empty_cons in IH.
    destruct boundary; rewrite ?join_empty_cons, ?append_nil_l, append_cons;
      by rewrite IH.
Qed.

Lemma filter_nonempty_join l :
  Str.join "" (filter (fun s => s <> "") l) = Str.join "" l.
Proof.
  induction l as [|s l IH]; [done|].
  rewrite join_empty_cons. destruct (decide (s = "")) as [->|Hs].
  - rewrite filter_cons_False by auto. by rewrite IH.
  - rewrite filter_cons_True by done. by rewrite join_empty_cons, IH.
Qed.

(** The pieces of a split, put together again, are the text. *)
Lemma split_text_with_regex_join text sep :
  Str.join "" (TextSplitter.split_text_with_regex text sep) = text.
Proof.
  unfold TextSplitter.split_text_with_regex. rewrite filter_nonempty_join.
  destruct sep; [apply chars_join|apply cut_before_join].
Qed.

Lemma len_nonneg s : 0 <= Str.len s.
Proof. unfold Str.len. lia. Qed.

Lemma len_join_elem s l : s ∈ l -> Str.len s <= Str.len (Str.join "" l).
Proof.
  induction l as [|t l IH]; [by intros ?%elem_of_nil|].
  rewrite join_empty_cons, len_append.
  intros [->|Hin]%elem_of_cons.
  - pose proof (len_nonneg (Str.join "" l)). lia.
  - pose proof (len_nonneg t). specialize (IH Hin). lia.
Qed.

Lemma blank_join l : Str.blank (Str.join "" l) = forallb Str.blank l.
Proof.
  induction l as [|s l IH]; [done|].
  by rewrite join_empty_cons, blank_append, IH.
Qed.

Lemma join_docs_empty_sep l :
  TextSplitter.join_docs l ""
  = if Str.blank (Str.join "" l) then None else Some (Str.strip (Str.join "" l)).
Proof.
  unfold TextSplitter.join_docs. case_decide as Hd.
  - apply strip_nil_blank in Hd. by rewrite Hd.
  - destruct (Str.blank _) eqn:Hb; [|done].
    by apply strip_nil_blank in Hb.
Qed.

Lemma sep_if_0 b : TextSplitter.sep_if b 0 = 0.
Proof. by destruct b. Qed.

(** Pieces that fit into one chunk together are gathered without a flush. *)
Lemma merge_fold_fits self splits docs cur total :
  total + Str.len (Str.join "" splits) <= TextSplitter.chunk_size self ->
  fold_left (TextSplitter.merge_step self "") splits (docs, cur, total)
  = (docs, cur ++ splits, total + Str.len (Str.join "" splits)).
Proof.
  revert cur total. induction splits as [|d splits IH]; intros cur total Hfit.
  - cbn. by rewrite app_nil_r, Z.add_0_r.
  - rewrite join_empty_cons, len_append in Hfit |- *.
    pose proof (len_nonneg (Str.join "" splits)).
    cbn [fold_left]. unfold TextSplitter.merge_step at 2.
    change (Str.len "") with 0. rewrite !sep_if_0, !Z.add_0_r.
    destruct (Z.gtb_spec (total + Str.len d) (TextSplitter.chunk_size self));
      [exfalso; lia|].
    cbn [andb]. rewrite sep_if_0, IH by lia. f_equal; [|lia].
    by rewrite <-app_assoc.
Qed.

Lemma merge_splits_fits self splits :
  Str.len (Str.join "" splits) <= TextSplitter.chunk_size self ->
  TextSplitter.merge_splits self splits ""
  = if Str.blank (Str.join "" splits) then []
    else [Str.strip (Str.join "" splits)].
Proof.
  intros Hfit. unfold TextSplitter.merge_splits.
  rewrite merge_fold_fits by lia. cbn [app].
  rewrite join_docs_empty_sep. by destruct (Str.blank _).
Qed.

Lemma split_fold_good self finer splits final_chunks good_splits :
  (forall s, s ∈ splits -> Str.len s < TextSplitter.chunk_size self) ->
  fold_left (TextSplitter.split_step self finer) splits
    (final_chunks, good_splits)
  = (final_chunks, good_splits ++ splits).
Proof.
  revert good_splits.
  induction splits as [|s splits IH]; intros good_splits Hall.
  - by rewrite app_nil_r.
  - cbn [fold_left]. unfold TextSplitter.split_step at 2.
    destruct (Z.ltb_spec (Str.len s) (TextSplitter.chunk_size self)) as [_|Hge].
    + rewrite IH, <-app_assoc; [done|]. intros t Ht. apply Hall. by right.
    + assert (Str.len s < TextSplitter.chunk_size self) by (apply Hall; by left).
      exfalso; lia.
Qed.

Lemma split_with_short self finer sep text :
  Str.len text < TextSplitter.chunk_size self ->
  TextSplitter.split_with self finer sep text
  = if Str.blank text then [] else [Str.strip text].
Proof.
  intros Hshort. unfold TextSplitter.split_with.
  pose proof (split_text_with_regex_join text sep) as Hjoin.
  set (splits := TextSplitter.split_text_with_regex text sep) in *.
  rewrite split_fold_good.
  - cbn [app]. destruct splits as [|s splits].
    + cbn in Hjoin. by subst text.
    + cbn [TextSplitter.nonempty].
      rewrite merge_splits_fits by (rewrite Hjoin; lia). by rewrite Hjoin.
  - intros s Hs%len_join_elem. rewrite Hjoin in Hs. lia.
Qed.

(** A text shorter than the chunk size is one chunk, its stripped text, or
    no chunk when nothing is left of it. *)
Lemma split_text_short self text :
  Str.len text < TextSplitter.chunk_size self ->
  TextSplitter.split_text self text
  = if Str.blank text then [] else [Str.strip text].
Proof.
  intros Hshort. unfold TextSplitter.split_text.
  generalize (List.last (TextSplitter.separators self) "").
  induction (TextSplitter.separators self) as [|s seps IH]; intros last.
  - by apply split_with_short.
  - cbn [TextSplitter.split_text_rec].
    case_decide; [by apply split_with_short|].
    destruct (Str.contains s text); [by apply split_with_short|apply IH].
Qed.

(** [total] is the length of [current_doc] joined: the inner loop keeps
    it so, and on the empty list its test is false. *)
Lemma pop_front_total self _len cur :
  let out := TextSplitter.pop_front self 0 _len cur (Str.len (Str.join "" cur)) in
  out.2 = Str.len (Str.join "" out.1).
Proof.
  induction cur as [|d cur IH]; [done|].
  cbn [TextSplitter.pop_front]. destruct (_ || _); [|done].
  rewrite sep_if_0, Z.add_0_r, join_empty_cons, len_append.
  replace (Str.len d + Str.len (Str.join "" cur) - Str.len d)
    with (Str.len (Str.join "" cur)) by lia.
  apply IH.
Qed.

Lemma pop_front_test_nil self _len :
  0 <= TextSplitter.chunk_overlap self ->
  (0 >? TextSplitter.chunk_overlap self)
  || ((0 + _len + TextSplitter.sep_if (@TextSplitter.nonempty string []) 0
         >? TextSplitter.chunk_size self) && (0 >? 0)) = false.
Proof.
  intros Hoverlap. rewrite andb_false_r, orb_false_r.
  destruct (Z.gtb_spec 0 (TextSplitter.chunk_overlap self)); [exfalso; lia|done].
Qed.

Lemma merge_step_total self docs cur d :
  exists docs' cur',
    TextSplitter.merge_step self "" (docs, cur, Str.len (Str.join "" cur)) d
    = (docs', cur', Str.len (Str.join "" cur')).
Proof.
  unfold TextSplitter.merge_step. change (Str.len "") with 0.
  destruct (_ && _).
  - pose proof (pop_front_total self (Str.len d) cur) as Hpop. cbn zeta in Hpop.
    destruct (TextSplitter.pop_front _ _ _ _ _) as [cur' total'].
    cbn in Hpop. subst total'. eexists _, _. f_equal.
    rewrite sep_if_0, join_empty_app, len_append. cbn [Str.join]. lia.
  - eexists _, _. f_equal.
    rewrite sep_if_0, join_empty_app, len_append. cbn [Str.join]. lia.
Qed.

Lemma pop_front_Forall (P : string -> Prop) self separator_len _len cur total :
  Forall P cur ->
  Forall P (TextSplitter.pop_front self separator_len _len cur total).1.
Proof.
  revert total. induction cur as [|d cur IH]; intros total Hall; [done|].
  cbn [TextSplitter.pop_front]. destruct (_ || _); [|done].
  apply IH. by inversion Hall.
Qed.

Lemma join_docs_blank l :
  Forall (fun s => Str.blank s = true) l -> TextSplitter.join_docs l "" = None.
Proof.
  intros Hall. rewrite join_docs_empty_sep, blank_join.
  assert (forallb Str.blank l = true) as ->; [|done].
  induction Hall as [|s l Hs _ IH]; [done|]. cbn. by rewrite Hs, IH.
Qed.

Lemma merge_step_blank self docs cur total d :
  Str.blank d = true ->
  Forall (fun s => Str.blank s = true) cur ->
  exists cur' total',
    TextSplitter.merge_step self "" (docs, cur, total) d = (docs, cur', total') /\
    Forall (fun s => Str.blank s = true) cur'.
Proof.
  intros Hd Hcur. unfold TextSplitter.merge_step.
  destruct (_ && _).
  - rewrite join_docs_blank by done.
    pose proof (pop_front_Forall _ self (Str.len "") (Str.len d) cur total Hcur)
      as Hpop.
    destruct (TextSplitter.pop_front _ _ _ _ _) as [cur' total'].
    eexists _, _. split; [done|]. apply Forall_app. split; [done|].
    by constructor.
  - eexists _, _. split; [done|]. apply Forall_app. split; [done|].
    by constructor.
Qed.

Lemma merge_fold_blank self splits docs cur total :
  Forall (fun s => Str.blank s = true) splits ->
  Forall (fun s => Str.blank s = true) cur ->
  exists cur' total',
    fold_left (TextSplitter.merge_step self "") splits (docs, cur, total)
    = (docs, cur', total') /\
    Forall (fun s => Str.blank s = true) cur'.
Proof.
  intros Hsplits. revert cur total.
  induction Hsplits as [|d splits Hd _ IH]; intros cur total Hcur.
  - by exists cur, total.
  - cbn [fold_left].
    destruct (merge_step_blank self docs cur total d Hd Hcur)
      as (cur' & total' & -> & Hcur').
    by apply IH.
Qed.

(** Whitespace pieces merge into no chunk at all. *)
Lemma merge_splits_blank self splits :
  Forall (fun s => Str.blank s = true) splits ->
  TextSplitter.merge_splits self splits "" = [].
Proof.
  intros Hsplits. unfold TextSplitter.merge_splits.
  destruct (merge_fold_blank self splits [] [] 0 Hsplits)
    as (cur' & total' & -> & Hcur'); [done|].
  by rewrite join_docs_blank.
Qed.

Lemma blank_pieces text sep :
  Str.blank text = true ->
  Forall (fun s => Str.blank s = true)
    (TextSplitter.split_text_with_regex text sep).
Proof.
  intros Hb. rewrite <-(split_text_with_regex_join text sep), blank_join in Hb.
  induction (TextSplitter.split_text_with_regex text sep) as [|s l IH];
    [done|].
  cbn in Hb. apply andb_true_iff in Hb as [??]. constructor; auto.
Qed.

Lemma chars_len text s : s ∈ Str.chars text -> Str.len s = 1.
Proof.
  induction text as [|c text IH]; [by intros ?%elem_of_nil|].
  cbn [Str.chars]. by intros [->|?]%elem_of_cons; [|apply IH].
Qed.

Lemma split_fold_blank self finer sep text splits good_splits :
  finer_drops_blank self finer sep ->
  (forall s, s ∈ splits ->
     Str.blank s = true /\ s ∈ TextSplitter.split_text_with_regex text sep) ->
  Forall (fun s => Str.blank s = true) good_splits ->
  exists good_splits',
    fold_left (TextSplitter.split_step self finer) splits ([], good_splits)
    = ([], good_splits') /\
    Forall (fun s => Str.blank s = true) good_splits'.
Proof.
  intros Hfiner. revert good_splits.
  induction splits as [|s splits IH]; intros good_splits Hsplits Hgood.
  - by exists good_splits.
  - cbn [fold_left]. unfold TextSplitter.split_step at 2.
    destruct (Hsplits s) as [Hs Hin]; [by left|].
    assert (forall t, t ∈ splits ->
              Str.blank t = true /\
              t ∈ TextSplitter.split_text_with_regex text sep) as Hrest.
    { intros t Ht. apply Hsplits. by right. }
    destruct (Z.ltb_spec (Str.len s) (TextSplitter.chunk_size self)) as [_|Hge].
    { apply IH; [done|]. apply Forall_app. split; [done|]. by constructor. }
    assert ((if TextSplitter.nonempty good_splits
             then [] ++ TextSplitter.merge_splits self good_splits ""
             else []) = []) as ->.
    { destruct (TextSplitter.nonempty good_splits); [|done].
      by rewrite merge_splits_blank. }
    destruct finer as [other|]; cbn in Hfiner.
    + rewrite Hfiner by done. by apply IH.
    + destruct Hfiner as [-> Hsize].
      unfold TextSplitter.split_text_with_regex in Hin.
      apply list_elem_of_filter in Hin as [_ Hin%chars_len]. exfalso; lia.
Qed.

Lemma split_with_blank self finer sep text :
  finer_drops_blank self finer sep ->
  Str.blank text = true ->
  TextSplitter.split_with self finer sep text = [].
Proof.
  intros Hfiner Hb. unfold TextSplitter.split_with.
  destruct (split_fold_blank self finer sep text
              (TextSplitter.split_text_with_regex text sep) [])
    as (good & -> & Hgood); [done| |done|].
  - intros s Hs. split; [|done].
    pose proof (blank_pieces text sep Hb) as Hall.
    by apply (proj1 (Forall_forall _ _) Hall).
  - destruct (TextSplitter.nonempty good); [|done].
    by rewrite merge_splits_blank.
Qed.

Lemma split_text_rec_blank self last separators text :
  "" ∈ separators ->
  1 < TextSplitter.chunk_size self ->
  Str.blank text = true ->
  TextSplitter.split_text_rec self last separators text = [].
Proof.
  intros Hin Hsize. revert text.
  induction separators as [|s seps IH]; intros text Hb.
  { by apply elem_of_nil in Hin. }
  cbn [TextSplitter.split_text_rec]. case_decide as Hs.
  { by apply split_with_blank. }
  assert ("" ∈ seps) as Hin'.
  { apply elem_of_cons in Hin as [?|?]; [congruence|done]. }
  destruct (Str.contains s text); [|by apply IH].
  apply split_with_blank; [|done].
  destruct seps; [by apply elem_of_nil in Hin'|].
  cbn. intros t Ht. by apply IH.
Qed.

(** A whitespace-only text leaves no chunk, for a chunk size of at least
    two and a separator list that ends in the split into characters. *)
Lemma split_text_blank self text :
  "" ∈ TextSplitter.separators self ->
  1 < TextSplitter.chunk_size self ->
  Str.blank text = true ->
  TextSplitter.split_text self text = [].
Proof. intros. by apply split_text_rec_blank. Qed.

End splitter_facts.

(** * [core/ingest.py] and [core/chunker.py] *)

Section chunker_facts.

Implicit Types (pages : list Page.t) (page : Page.t) (doc : UUID.t).
Implicit Types (sp : TextSplitter.t) (chunks : list Chunk.t).

Lemma split_at_underscore a a' b b' :
  underscore_free a = true -> underscore_free a' = true ->
  a +:+ "_" +:+ b = a' +:+ "_" +:+ b' -> a = a' /\ b = b'.
Proof.
  revert a'. induction a as [|c a IH]; intros [|c' a'] Ha Ha' Heq.
  - rewrite !append_nil_l in Heq. by injection Heq.
  - rewrite append_nil_l, append_cons in Heq. injection Heq as <- _.
    cbn in Ha'. done.
  - rewrite append_nil_l, append_cons in Heq. injection Heq as -> _.
    cbn in Ha. done.
  - rewrite !append_cons in Heq. injection Heq as -> Heq.
    cbn in Ha, Ha'. apply andb_true_iff in Ha as [_ Ha].
    apply andb_true_iff in Ha' as [_ Ha'].
    destruct (IH a' Ha Ha' Heq) as [-> ->]. done.
Qed.

Lemma pretty_N_go_free (x : N) s :
  underscore_free s = true -> underscore_free (pretty_N_go x s) = true.
Proof.
  revert s. induction (N.lt_wf_0 x) as [x _ IH]; intros s Hs.
  destruct (decide (x = 0%N)) as [->|Hx]; [by rewrite pretty_N_go_0|].
  rewrite pretty_N_go_step by lia. apply IH.
  - apply N.div_lt; lia.
  - cbn. rewrite Hs, andb_true_r. unfold pretty_N_char.
    by repeat case_match.
Qed.

Lemma pretty_N_free (x : N) : underscore_free (pretty x) = true.
Proof.
  unfold pretty, pretty_N. case_decide; [done|]. by apply pretty_N_go_free.
Qed.

Lemma pretty_Z_free (z : Z) : underscore_free (pretty z) = true.
Proof.
  destruct z as [|p|p]; [done|apply pretty_N_free|].
  unfold pretty, pretty_Z. rewrite append_cons, append_nil_l. cbn.
  apply pretty_N_free.
Qed.

(** The identifier determines the page number and the sequence index. *)
Lemma format_chunk_id_inj doc p i p' i' :
  format_chunk_id doc p i = format_chunk_id doc p' i' -> p = p' /\ i = i'.
Proof.
  unfold format_chunk_id. intros Heq.
  apply (inj (String.app _)) in Heq. apply (inj (String.app _)) in Heq.
  apply split_at_underscore in Heq as [Hp Hi];
    [|apply pretty_Z_free|apply pretty_Z_free].
  split; [by apply (inj pretty)|by apply (inj pretty)].
Qed.

Lemma enumerate_from_fst {A} (l : list A) k :
  (enumerate_from k l).*1 = seq k (length l).
Proof.
  revert k. induction l as [|x l IH]; intros k; [done|].
  cbn. by rewrite IH.
Qed.

Lemma enumerate_from_lookup {A} (l : list A) k i x :
  (i, x) ∈ enumerate_from k l <-> exists j, i = (k + j)%nat /\ l !! j = Some x.
Proof.
  revert k. induction l as [|y l IH]; intros k; cbn.
  - rewrite elem_of_nil. split; [done|]. by intros (j & _ & ?).
  - rewrite elem_of_cons, IH. split.
    + intros [[= -> ->]|(j & -> & Hj)].
      * exists 0%nat. split; [lia|done].
      * exists (S j). split; [lia|done].
    + intros ([|j] & -> & Hj).
      * left. injection Hj as ->. f_equal. lia.
      * right. exists j. split; [lia|done].
Qed.

Lemma chunk_page_spec sp doc chunks page :
  chunk_page sp doc chunks page = chunks ++ page_chunks sp doc page.
Proof.
  unfold chunk_page, page_chunks.
  generalize (enumerate_from 0 (TextSplitter.split_text sp (Page.text page))).
  intros l. revert chunks. induction l as [|[idx text] l IH]; intros chunks.
  - by rewrite app_nil_r.
  - cbn [fold_left]. rewrite IH, <-app_assoc. done.
Qed.

Lemma chunk_fold_spec sp doc pages chunks :
  fold_left (chunk_page sp doc) pages chunks
  = chunks ++ (pages ≫= page_chunks sp doc).
Proof.
  revert chunks. induction pages as [|page pages IH]; intros chunks.
  - by rewrite app_nil_r.
  - cbn [fold_left]. rewrite IH, chunk_page_spec, <-app_assoc. done.
Qed.

Lemma page_chunks_elem sp doc page c :
  c ∈ page_chunks sp doc page <->
  exists idx,
    TextSplitter.split_text sp (Page.text page) !! idx = Some (Chunk.text c) /\
    c = Chunk.mk (format_chunk_id doc (Page.page_number page) idx) doc
          (Page.page_number page) (Chunk.text c).
Proof.
  unfold page_chunks. rewrite list_elem_of_fmap. split.
  - intros ([idx text] & -> & (j & -> & Hj)%enumerate_from_lookup).
    exists j. done.
  - intros (idx & Hidx & Hc). exists (idx, Chunk.text c). split; [done|].
    apply enumerate_from_lookup. by exists idx.
Qed.

Lemma page_chunks_ids sp doc page :
  Chunk.chunk_id <$> page_chunks sp doc page
  = format_chunk_id doc (Page.page_number page)
      <$> seq 0 (length (TextSplitter.split_text sp (Page.text page))).
Proof.
  unfold page_chunks. rewrite <-enumerate_from_fst, <-!list_fmap_compose.
  apply list_fmap_ext. by intros _ [idx text] _.
Qed.

Lemma fmap_NoDup_inj {A B} (f : A -> B) (l : list A) x y :
  NoDup (f <$> l) -> x ∈ l -> y ∈ l -> f x = f y -> x = y.
Proof.
  induction l as [|z l IH]; [by intros _ ?%elem_of_nil|].
  rewrite fmap_cons, NoDup_cons.
  intros [Hz Hnd] [->|Hx]%elem_of_cons [->|Hy]%elem_of_cons Heq; auto.
  - destruct Hz. rewrite Heq. by apply list_elem_of_fmap_2.
  - destruct Hz. rewrite <-Heq. by apply list_elem_of_fmap_2.
Qed.

Lemma chunk_ids_NoDup sp doc pages :
  NoDup (Page.page_number <$> pages) ->
  NoDup (Chunk.chunk_id <$> (pages ≫= page_chunks sp doc)).
Proof.
  induction pages as [|page pages IH]; [constructor|].
  rewrite fmap_cons, NoDup_cons. intros [Hfresh Hnd].
  rewrite bind_cons, fmap_app. apply NoDup_app. split; [|split; [|auto]].
  - rewrite page_chunks_ids. apply NoDup_fmap_2_strong; [|apply NoDup_seq].
    intros i j _ _ Heq. by apply format_chunk_id_inj in Heq as [_ ?].
  - intros id (c & -> & Hc)%list_elem_of_fmap (c' & Heq & Hc')%list_elem_of_fmap.
    apply page_chunks_elem in Hc as (idx & _ & Hc).
    apply list_elem_of_bind in Hc' as (page' & Hc' & Hpage').
    apply page_chunks_elem in Hc' as (idx' & _ & Hc').
    apply (f_equal Chunk.chunk_id) in Hc, Hc'. cbn in Hc, Hc'.
    rewrite Hc, Hc' in Heq.
    apply format_chunk_id_inj in Heq as [Heq _].
    apply Hfresh. rewrite Heq. by apply list_elem_of_fmap_2.
Qed.

(** The pages [extract_pdf_pages] returns carry distinct page numbers, all
    between 1 and the page count. *)
Lemma extract_pages_from_numbers idx reader_pages :
  Forall (fun page => Z.of_nat idx + 1 <= Page.page_number page
                      <= Z.of_nat idx + Z.of_nat (length reader_pages))
    (extract_pages_from idx reader_pages) /\
  NoDup (Page.page_number <$> extract_pages_from idx reader_pages).
Proof.
  revert idx. induction reader_pages as [|outcome rest IH]; intros idx.
  { split; constructor. }
  destruct (IH (S idx)) as [Hrange Hnd].
  assert (Forall (fun page => Z.of_nat idx + 2 <= Page.page_number page
                      <= Z.of_nat idx + Z.of_nat (length (outcome :: rest)))
            (extract_pages_from (S idx) rest)) as Hrest.
  { eapply Forall_impl; [exact Hrange|]. cbn [length]. intros page. cbn beta. lia. }
  assert (Forall (fun page => Z.of_nat idx + 1 <= Page.page_number page
                      <= Z.of_nat idx + Z.of_nat (length (outcome :: rest)))
            (extract_pages_from (S idx) rest)) as Hrest'.
  { eapply Forall_impl; [exact Hrest|]. intros page. cbn beta. lia. }
  cbn [extract_pages_from].
  destruct outcome as [[text|]|e]; [|done..].
  case_decide; [done|]. split.
  - constructor; [|done]. cbn [Page.page_number length]. lia.
  - rewrite fmap_cons. apply NoDup_cons. split; [|done].
    intros (page & Heq & Hin)%list_elem_of_fmap.
    apply (proj1 (Forall_forall _ _) Hrest) in Hin.
    cbn [Page.page_number] in Heq. lia.
Qed.

Lemma extract_pdf_pages_numbers reader_pages :
  NoDup (Page.page_number <$> extract_pdf_pages reader_pages) /\
  Forall (fun page => 1 <= Page.page_number page <= get_page_count reader_pages)
    (extract_pdf_pages reader_pages).
Proof.
  destruct (extract_pages_from_numbers 0 reader_pages) as [Hrange Hnd].
  split; [done|]. unfold get_page_count.
  eapply Forall_impl; [exact Hrange|]. intros page. cbn beta. lia.
Qed.

Lemma splitter_ok chunk_size chunk_overlap separators :
  0 < chunk_size -> 0 <= chunk_overlap <= chunk_size ->
  TextSplitter.RecursiveCharacterTextSplitter chunk_size chunk_overlap separators
  = Ok (TextSplitter.mk chunk_size chunk_overlap separators).
Proof.
  intros Hsize Hoverlap. unfold TextSplitter.RecursiveCharacterTextSplitter.
  destruct (Z.leb_spec chunk_size 0); [exfalso; lia|].
  destruct (Z.ltb_spec chunk_overlap 0); [exfalso; lia|].
  destruct (Z.gtb_spec chunk_overlap chunk_size); [exfalso; lia|]. done.
Qed.

Lemma chunk_document_ok pages doc chunk_size chunk_overlap :
  0 < chunk_size -> 0 <= chunk_overlap <= chunk_size ->
  chunk_document pages doc chunk_size chunk_overlap
  = Ok (pages ≫= page_chunks
          (TextSplitter.mk chunk_size chunk_overlap chunk_separators) doc).
Proof.
  intros Hsize Hoverlap. unfold chunk_document.
  rewrite splitter_ok by done. cbn [mbind result_bind].
  by rewrite chunk_fold_spec.
Qed.

(** C5: [chunk_document] returns the chunks of each page in turn,
    numbered from 0 on every page: every chunk is a piece of the text of
    one entry of [pages_data], bears that entry's page number, and its
    identifier is [{doc_id}_{page_number}_{idx}].  On the pages
    [extract_pdf_pages] returns for a document, which is what
    [pages_data] is, the page of a chunk is the only one with its number,
    the identifiers are pairwise distinct and the page numbers lie between
    1 and the page count; so it is for any pages with pairwise distinct
    numbers, and a range of page numbers is handed on to the chunks. *)
Theorem chunk_document_spec pages doc chunk_size chunk_overlap :
  0 < chunk_size -> 0 <= chunk_overlap <= chunk_size ->
  let sp := TextSplitter.mk chunk_size chunk_overlap chunk_separators in
  exists chunks,
    chunk_document pages doc chunk_size chunk_overlap = Ok chunks /\
    chunks = pages ≫= page_chunks sp doc /\
    (forall c, c ∈ chunks ->
       exists page idx,
         page ∈ pages /\
         TextSplitter.split_text sp (Page.text page) !! idx
         = Some (Chunk.text c) /\
         Chunk.page_number c = Page.page_number page /\
         Chunk.doc_id c = doc /\
         Chunk.chunk_id c
         = format_chunk_id doc (Page.page_number page) idx) /\
    (forall reader_pages,
       pages = extract_pdf_pages reader_pages ->
       NoDup (Chunk.chunk_id <$> chunks) /\
       Forall (fun c => 1 <= Chunk.page_number c <= get_page_count reader_pages)
         chunks /\
       forall c page page',
         c ∈ chunks -> page ∈ pages -> page' ∈ pages ->
         Page.page_number page = Chunk.page_number c ->
         Page.page_number page' = Chunk.page_number c -> page = page') /\
    (NoDup (Page.page_number <$> pages) ->
     NoDup (Chunk.chunk_id <$> chunks)) /\
    (forall page_count,
       Forall (fun page => 1 <= Page.page_number page <= page_count) pages ->
       Forall (fun c => 1 <= Chunk.page_number c <= page_count) chunks).
Proof.
  intros Hsize Hoverlap sp. eexists. split; [by apply chunk_document_ok|].
  fold sp.
  assert (forall page_count,
            Forall (fun page => 1 <= Page.page_number page <= page_count) pages ->
            Forall (fun c => 1 <= Chunk.page_number c <= page_count)
              (pages ≫= page_chunks sp doc)) as Hrange.
  { intros page_count Hin. apply Forall_forall.
    intros c (page & Hc & Hpage)%list_elem_of_bind.
    apply page_chunks_elem in Hc as (idx & _ & ->). cbn.
    by apply (proj1 (Forall_forall _ _) Hin). }
  split; [done|]. split; [|split; [|split; [|done]]].
  - intros c (page & Hc & Hpage)%list_elem_of_bind.
    apply page_chunks_elem in Hc as (idx & Hidx & Hc).
    exists page, idx. rewrite Hc. cbn. done.
  - intros reader_pages ->.
    destruct (extract_pdf_pages_numbers reader_pages) as [Hnd Hin].
    split; [by apply chunk_ids_NoDup|]. split; [by apply Hrange|].
    intros c page page' _ Hpage Hpage' Heq Heq'.
    apply (fmap_NoDup_inj Page.page_number (extract_pdf_pages reader_pages));
      [done..|congruence].
  - apply chunk_ids_NoDup.
Qed.

(** With the default sizes every ingested document gets distinct chunk
    identifiers and page numbers between 1 and its page count. *)
Lemma ingested_chunks reader_pages doc :
  exists chunks,
    chunk_document (extract_pdf_pages reader_pages) doc 1000 200 = Ok chunks /\
    NoDup (Chunk.chunk_id <$> chunks) /\
    Forall (fun c => 1 <= Chunk.page_number c <= get_page_count reader_pages)
      chunks.
Proof.
  destruct (extract_pdf_pages_numbers reader_pages) as [Hnd Hrange].
  eexists. split; [by apply chunk_document_ok|]. split.
  - by apply chunk_ids_NoDup.
  - apply Forall_forall. intros c (page & Hc & Hpage)%list_elem_of_bind.
    apply page_chunks_elem in Hc as (idx & _ & ->). cbn.
    by apply (proj1 (Forall_forall _ _) Hrange).
Qed.

(** C6, as the code has it: a page whose text is shorter than the chunk
    size and not empty after trimming gives exactly one chunk, the trimmed
    text; a page whose text is empty after trimming gives no chunk, for a
    chunk size of at least two. *)
Theorem chunk_single_page page doc chunk_size chunk_overlap :
  0 < chunk_size -> 0 <= chunk_overlap <= chunk_size ->
  (Str.strip (Page.text page) <> "" ->
   Str.len (Page.text page) < chunk_size ->
   chunk_document [page] doc chunk_size chunk_overlap
   = Ok [Chunk.mk (format_chunk_id doc (Page.page_number page) 0) doc
           (Page.page_number page) (Str.strip (Page.text page))]) /\
  (Str.strip (Page.text page) = "" ->
   1 < chunk_size ->
   chunk_document [page] doc chunk_size chunk_overlap = Ok []).
Proof.
  intros Hsize Hoverlap. rewrite chunk_document_ok by done.
  rewrite bind_cons. change ([] ≫= page_chunks _ doc) with (@nil Chunk.t).
  rewrite app_nil_r. unfold page_chunks. split.
  - intros Hne Hshort. rewrite split_text_short by done.
    destruct (Str.blank (Page.text page)) eqn:Hb; [|done].
    by apply strip_nil_blank in Hb.
  - intros Hb%strip_nil_blank Hsize'. rewrite split_text_blank; [done| |done..].
    cbn. unfold chunk_separators.
    do 4 apply list_elem_of_further. apply list_elem_of_here.
Qed.

End chunker_facts.

(** * The pipeline on concrete inputs *)

Module Examples.

Import Fixture.

(** C1: a chunk with the text [new text] is saved under an identifier
    that already holds [old text].  The save returns 1, the number of
    chunks it reports as saved, and the collection is the one it was
    given: the record still holds [old text] and nothing was written. *)
Theorem resave_does_not_overwrite :
  Chunk.chunk_id new_chunk = Chunk.chunk_id old_chunk /\
  stored_text (db_with [old_chunk]) (Chunk.chunk_id old_chunk)
  = Some "old text" /\
  save_chunks_to_db embed_documents [new_chunk] doc_metadata
    (db_with [old_chunk]) = Ok (1, db_with [old_chunk]) /\
  stored_text (db_with [old_chunk]) (Chunk.chunk_id new_chunk)
  <> Some (Chunk.text new_chunk).
Proof.
  split; [reflexivity|]. split; [vm_compute; reflexivity|].
  split; [vm_compute; reflexivity|]. vm_compute. discriminate.
Qed.

(** C2: a filtered query for at most 5 results on a collection with two
    records of the document returns both. *)
Lemma query_collection_ranked_witness :
  exists hits,
    query_collection distance embed_query "hello" 5 (Some (UUID.str doc))
      (db_with two_chunks)
    = Ok (single_result distance 5 hits) /\
    length hits = 2%nat /\
    StronglySorted Qle (Chroma.hit_distances distance 5 hits).
Proof.
  destruct (query_collection_ranked distance embed_query "hello" 5
              (Some (UUID.str doc)) (db_with two_chunks) 5)
    as (hits & Hq & _ & Hlen & _ & Hsorted & _);
    [reflexivity|reflexivity|lia|discriminate|].
  exists hits. split; [exact Hq|]. split; [|exact Hsorted].
  rewrite Hlen. vm_compute. reflexivity.
Defined.

(** C2 fails as stated: with the empty string as filter the query returns
    a record whose ["doc_id"] is not the filter, and a query for zero
    results on the empty collection raises. *)
Lemma empty_filter_returns_other_documents :
  (exists results,
     query_collection distance embed_query "hello" 5 (Some "")
       (db_with [old_chunk]) = Ok results /\
     Chroma.ids results = [[Chunk.chunk_id old_chunk]] /\
     Chroma.metadatas results
     = Some [[chunk_metadata doc_metadata old_chunk]] /\
     chunk_metadata doc_metadata old_chunk !! "doc_id"
     = Some (Chroma.MStr "00000000-0000-0000-0000-000000000007")) /\
  query_collection distance embed_query "hello" 0 None empty_db
  = Raise (Exn "TypeError"
             "Number of requested results 0, cannot be negative, or zero. in query.").
Proof.
  split; [|reflexivity]. eexists. split; [vm_compute; reflexivity|].
  split; [vm_compute; reflexivity|]. split; vm_compute; reflexivity.
Qed.

(** C4: a blank context, and a query on the empty collection. *)
Lemma no_context_refusal_witness :
  generate_answer generate_content "Who?" "   " [] = (NO_INFORMATION, []) /\
  query_documents distance embed_query generate_content
    {| question := "Who?"; doc_id := None |} empty_db []
  = (Response (refusal "Who?"), []).
Proof.
  destruct (no_context_refusal distance embed_query generate_content)
    as [Hgen Hquery].
  split.
  - apply Hgen. right. reflexivity.
  - apply (Hquery {| question := "Who?"; doc_id := None |} empty_db [] 4);
      reflexivity.
Defined.

(** C3: two stored chunks at the distances 0 and 6/10 of the query. *)
Lemma get_context_spec_witness :
  get_context distance embed_query "hello" None 5 (db_with two_chunks)
  = Ok "[Source: report.pdf, Page 1] (Relevance: 100.00%)
hello

---

[Source: report.pdf, Page 2] (Relevance: 40.00%)
hello world".
Proof.
  pose proof (get_context_spec distance embed_query "hello" None 5
                (db_with two_chunks)) as H.
  set (found := query_collection distance embed_query "hello" 5 None
                  (db_with two_chunks)) in H.
  assert (exists results, found = Ok results) as [results Hq]
    by (eexists; vm_compute; reflexivity).
  clearbody found. rewrite Hq in H.
  destruct H as (q & hits & blocks & Hemb & _ & Hhits & _ & Hblocks & Hctx & _).
  vm_compute in Hemb. injection Hemb as <-. rewrite Hctx, Hblocks, Hhits.
  vm_compute. reflexivity.
Defined.

(** C5: the pages of a reader of three pages, the second without text. *)
Lemma chunk_document_spec_witness :
  exists chunks,
    chunk_document (extract_pdf_pages reader_pages) doc 1000 200 = Ok chunks /\
    NoDup (Chunk.chunk_id <$> chunks) /\
    Forall (fun c => 1 <= Chunk.page_number c <= 3) chunks.
Proof.
  destruct (chunk_document_spec (extract_pdf_pages reader_pages) doc 1000 200)
    as (chunks & Hchunks & _ & _ & Hreader & _); [lia|lia|].
  destruct (Hreader reader_pages eq_refl) as (Hnd & Hrange & _).
  by exists chunks.
Defined.

(** Outside the pages of a reader the identifiers can repeat: two entries
    with the same page number give two chunks with one identifier, and a
    page number below 1 is handed on to the chunk. *)
Lemma repeated_page_number_repeats_chunk_id :
  (exists c1 c2,
     chunk_document [Page.mk "a" 1; Page.mk "b" 1] doc 1000 200
     = Ok [c1; c2] /\
     Chunk.chunk_id c1 = Chunk.chunk_id c2 /\
     ~ NoDup (Chunk.chunk_id <$> [c1; c2])) /\
  (exists c,
     chunk_document [Page.mk "a" 0] doc 1000 200 = Ok [c] /\
     Chunk.page_number c = 0).
Proof.
  split.
  - eexists _, _. split; [vm_compute; reflexivity|]. split; [reflexivity|].
    cbn. intros Hnd. apply NoDup_cons in Hnd as [Hnotin _].
    apply Hnotin. by left.
  - eexists. split; [vm_compute; reflexivity|]. reflexivity.
Qed.

(** C6: a short page, and a page of spaces. *)
Lemma chunk_single_page_witness :
  chunk_document [Page.mk "  short page " 3] doc 1000 200
  = Ok [Chunk.mk (format_chunk_id doc 3 0) doc 3 "short page"] /\
  chunk_document [Page.mk "   " 3] doc 1000 200 = Ok [].
Proof.
  destruct (chunk_single_page (Page.mk "  short page " 3) doc 1000 200)
    as [Hone _]; [lia|lia|].
  destruct (chunk_single_page (Page.mk "   " 3) doc 1000 200)
    as [_ Hnone]; [lia|lia|].
  split.
  - apply Hone; [discriminate|reflexivity].
  - apply Hnone; [reflexivity|lia].
Defined.

(** C6 fails as stated: a page of one space is not empty and shorter than
    the chunk size, and gives no chunk; with chunk size 1 the same page,
    empty after trimming, gives one chunk. *)
Lemma whitespace_page_chunks :
  (Page.text (Page.mk " " 1) <> "" /\
   Str.len (Page.text (Page.mk " " 1)) < 1000 /\
   chunk_document [Page.mk " " 1] doc 1000 200 = Ok []) /\
  (Str.strip (Page.text (Page.mk " " 1)) = "" /\
   chunk_document [Page.mk " " 1] doc 1 0
   = Ok [Chunk.mk (format_chunk_id doc 1 0) doc 1 " "]).
Proof.
  split.
  - split; [discriminate|]. split; [reflexivity|vm_compute; reflexivity].
  - split; [reflexivity|vm_compute; reflexivity].
Qed.

(** C7: one stored chunk whose text holds three dashes.  The query
    retrieves that one chunk and the endpoint reports two sources. *)
Theorem sources_count_overcounts :
  (exists results,
     query_collection distance embed_query "a" 5 None (db_with [dashes_chunk])
     = Ok results /\
     Chroma.ids results = [[Chunk.chunk_id dashes_chunk]]) /\
  exists calls,
    query_documents distance embed_query generate_content
      {| question := "a"; doc_id := None |} (db_with [dashes_chunk]) []
    = (Response {| answer := "See page 1.";
                   response_question := "a";
                   sources_used := 2 |}, calls).
Proof.
  split.
  - eexists. split; vm_compute; reflexivity.
  - eexists. vm_compute. reflexivity.
Qed.

(** C10: a query with the empty string as filter on the collection of
    the two chunks returns both. *)
Lemma empty_filter_is_no_filter_witness :
  exists hits,
    query_collection distance embed_query "hello" 5 (Some "")
      (db_with two_chunks)
    = Ok (single_result distance 5 hits) /\
    length hits = 2%nat.
Proof.
  destruct (empty_filter_is_no_filter distance embed_query "hello" 5
              (db_with two_chunks)) as (_ & _ & Hall).
  destruct (Hall 5) as (hits & Hq & Hlen & _);
    [reflexivity|reflexivity|lia|].
  exists hits. split; [exact Hq|]. rewrite Hlen. vm_compute. reflexivity.
Defined.

(** C8: deleting the document of the stored chunks empties the collection;
    deleting a document that was never stored succeeds and changes
    nothing. *)
Lemma delete_document_chunks_witness :
  delete_document_chunks (UUID.str doc) (db_with two_chunks)
  = (true, empty_db) /\
  delete_document_chunks "never-ingested" (db_with two_chunks)
  = (true, db_with two_chunks).
Proof.
  split; [vm_compute; reflexivity|].
  destruct (delete_document_chunks_spec "never-ingested" (db_with two_chunks))
    as (_ & _ & _ & _ & _ & Hnone).
  apply Hnone; [reflexivity|].
  change (map_Forall
            (fun (_ : string) (r : Chroma.Row Z) =>
               Chroma.metadata r !! "doc_id"
               <> Some (Chroma.MStr "never-ingested"))
            (Chroma.rows (db_with two_chunks))).
  apply (bool_decide_unpack _). vm_compute. exact I.
Defined.

(** C9: a save of two chunks returns 2. *)
Lemma save_chunks_count_witness :
  exists db',
    save_chunks_to_db embed_documents two_chunks doc_metadata empty_db
    = Ok (2, db').
Proof.
  destruct (save_chunks_count embed_documents doc_metadata empty_db)
    as (_ & _ & Hsave).
  apply (Hsave two_chunks [5; 11]);
    [discriminate|reflexivity|reflexivity|reflexivity|].
  apply (bool_decide_unpack _). vm_compute. exact I.
Defined.

End Examples.

(** * Further facts: counting the delimiter in a context *)

Section count_facts.

Implicit Types (s t sub a : string).

Lemma head_outside_tail x sub t :
  head_outside (String x sub) t -> head_outside sub t.
Proof.
  destruct t as [|d t]; [done|]. cbn. by intros [_ ?]%orb_false_iff.
Qed.

(** A text that starts outside [sub] cannot complete an occurrence of
    [sub] begun before it. *)
Lemma prefix_app_outside sub a t :
  head_outside sub t -> String.prefix sub (a +:+ t) = String.prefix sub a.
Proof.
  revert a. induction sub as [|x sub IH]; intros a Ht.
  { by destruct a, t. }
  destruct a as [|c a].
  - rewrite append_nil_l. destruct t as [|d t]; [done|].
    cbn in *. destruct (ascii_dec x d) as [->|_]; [|done].
    by rewrite Ascii.eqb_refl in Ht.
  - rewrite append_cons. cbn. destruct (ascii_dec x c); [|done].
    apply IH. by eapply head_outside_tail.
Qed.

Lemma prefix_length sub s :
  String.prefix sub s = true -> (String.length sub <= String.length s)%nat.
Proof.
  revert s. induction sub as [|x sub IH]; intros [|c s]; cbn; try done; [lia|].
  destruct (ascii_dec x c); [|done]. intros ?%IH. lia.
Qed.

(** Counting across a cut: the occurrences of [sub] in [a] followed by
    [t] are those in [a] and those in [t], when [t] starts outside
    [sub]. *)
Lemma count_from_app sub a t skip :
  head_outside sub t ->
  (skip <= String.length a)%nat ->
  Str.count_from sub (a +:+ t) skip
  = (Str.count_from sub a skip + Str.count_from sub t 0)%nat.
Proof.
  intros Ht. revert skip. induction a as [|c a IH]; intros skip Hskip.
  - cbn in Hskip. by replace skip with 0%nat by lia.
  - rewrite append_cons. cbn [Str.count_from]. destruct skip as [|k].
    + rewrite <-append_cons, prefix_app_outside by done.
      destruct (String.prefix sub (String c a)) eqn:Hp.
      * apply prefix_length in Hp. cbn in Hp. rewrite IH by lia. done.
      * apply IH. lia.
    + apply IH. cbn in Hskip. lia.
Qed.

Lemma dash_runs_separator rest :
  dash_runs (context_separator +:+ rest) = S (dash_runs rest).
Proof. destruct rest; reflexivity. Qed.

(** The runs of three dashes in a joined context: one for every
    delimiter line and those of the blocks. *)
Lemma dash_runs_join (blocks : list string) :
  blocks <> [] ->
  dash_runs (Str.join context_separator blocks)
  = (sum_list (dash_runs <$> blocks) + (length blocks - 1))%nat.
Proof.
  induction blocks as [|b blocks IH]; [done|]. intros _.
  destruct blocks as [|b' blocks].
  { cbn. lia. }
  change (Str.join context_separator (b :: b' :: blocks))
    with (b +:+ context_separator +:+ Str.join context_separator (b' :: blocks)).
  unfold dash_runs at 1, Str.count. cbn [String.length].
  rewrite count_from_app; [|done|lia].
  change (Str.count_from "---"
            (context_separator +:+ Str.join context_separator (b' :: blocks)) 0)
    with (dash_runs (context_separator
                     +:+ Str.join context_separator (b' :: blocks))).
  rewrite dash_runs_separator, IH by done.
  change (Str.count_from "---" b 0) with (dash_runs b).
  cbn [fmap list_fmap sum_list length]. unfold id. lia.
Qed.

End count_facts.

(** * Further facts: retrieval, answers and the [/query] endpoint *)

Section endpoint_facts.

Context {Emb : Type}.
Context (distance : Emb -> Emb -> Q).
Context (embed_query : string -> result Emb).
Context (generate_content : string -> result (option string)).
Implicit Types (db : Chroma.Collection Emb) (hits : list (string * Chroma.Row Emb)).

Lemma cited_block_not_blank q (r : string * Chroma.Row Emb) :
  Str.blank (cited_block distance q r) = false.
Proof.
  unfold cited_block, citation_header. by rewrite !blank_append.
Qed.

Lemma join_not_blank sep s (l : list string) :
  Str.blank s = false -> Str.blank (Str.join sep (s :: l)) = false.
Proof.
  intros Hs. cbn. destruct l; [done|]. by rewrite blank_append, Hs.
Qed.

Lemma sum_list_zero {A} (f : A -> nat) (l : list A) :
  Forall (fun x => f x = 0%nat) l -> sum_list (f <$> l) = 0%nat.
Proof.
  induction 1 as [|x l Hx _ IH]; [done|].
  rewrite fmap_cons. change (sum_list (f x :: (f <$> l)))
    with (f x + sum_list (f <$> l))%nat. by rewrite Hx, IH.
Qed.

Lemma get_context_hits query doc_id n_results db e :
  Chroma.online db = true ->
  embed_query query = Ok e ->
  0 < n_results ->
  get_context distance embed_query query doc_id n_results db
  = Ok (Str.join context_separator
          (cited_block distance e
             <$> Chroma.nearest distance db e n_results
                   (where_filter_of doc_id))).
Proof.
  intros Hon He Hn. unfold get_context.
  rewrite (query_collection_ok _ _ _ _ _ _ e) by done. cbn [mbind result_bind].
  apply format_single_result.
Qed.

(** X1: the source count of the endpoint, exactly.  With at least one
    hit, [sources_used] is the number of hits plus the number of runs of
    three dashes inside the rendered blocks; so it is never below the
    number of hits, and equals it when no block holds three dashes. *)
Theorem sources_used_formula request db calls e :
  Chroma.online db = true ->
  embed_query (question request) = Ok e ->
  Chroma.nearest distance db e 5 (where_filter_of (doc_id request)) <> [] ->
  let hits :=
    Chroma.nearest distance db e 5 (where_filter_of (doc_id request)) in
  let inside := sum_list (dash_runs <$> (cited_block distance e <$> hits)) in
  exists answer calls',
    query_documents distance embed_query generate_content request db calls
    = (Response {| answer := answer;
                   response_question := question request;
                   sources_used := Z.of_nat (length hits + inside) |},
       calls') /\
    Z.of_nat (length hits) <= Z.of_nat (length hits + inside) /\
    (Forall (fun r => dash_runs (cited_block distance e r) = 0%nat) hits ->
     inside = 0%nat).
Proof.
  intros Hon He Hne hits inside.
  pose proof (get_context_hits (question request) (doc_id request) 5 db e
                Hon He eq_refl) as Hctx.
  fold hits in Hctx.
  destruct (query_documents_sources distance embed_query generate_content
              request db calls _ Hctx) as (answer & calls' & Hq).
  { rewrite no_context_blank. subst hits.
    destruct (Chroma.nearest _ _ _ _ _) as [|r rest]; [done|].
    rewrite fmap_cons. apply join_not_blank, cited_block_not_blank. }
  exists answer, calls'. split; [|split; [lia|]].
  - rewrite Hq. do 3 f_equal.
    change (Str.count ?s "---") with (dash_runs s).
    rewrite dash_runs_join by (subst hits; by destruct (Chroma.nearest _ _ _ _ _)).
    rewrite length_fmap. fold inside.
    assert (length hits <> 0%nat)
      by (subst hits; by destruct (Chroma.nearest _ _ _ _ _)).
    lia.
  - intros Hall. subst inside. rewrite <-list_fmap_compose.
    by apply sum_list_zero.
Qed.

(** X2: what the endpoint can answer.  An error is the status 500 of a
    failed retrieval, with nothing sent to the generation service.  A
    response repeats the question; it reports 0 sources exactly when it
    is the refusal sent without a call to the service, and otherwise the
    service was called once, with the prompt built from the retrieved
    context. *)
Theorem query_documents_outcome request db calls :
  let out :=
    query_documents distance embed_query generate_content request db calls in
  match out.1 with
  | HTTPException status_code detail =>
      status_code = 500 /\ out.2 = calls /\
      exists e,
        get_context distance embed_query (question request)
          (doc_id request) 5 db = Raise e /\
        detail = "Error processing query: " +:+ exn_msg e
  | Response r =>
      response_question r = question request /\
      ((sources_used r = 0 /\ answer r = NO_INFORMATION /\ out.2 = calls) \/
       (0 < sources_used r /\
        exists context,
          get_context distance embed_query (question request)
            (doc_id request) 5 db = Ok context /\
          Str.blank context = false /\
          out.2 = calls ++ [full_prompt (question request) context]))
  end.
Proof.
  cbn zeta. unfold query_documents.
  destruct (get_context _ _ _ _ _ _) as [context|e] eqn:Hctx; cbn.
  2: { split; [done|]. split; [done|]. by exists e. }
  rewrite no_context_blank.
  destruct (Str.blank context) eqn:Hb; cbn.
  { split; [done|]. left. done. }
  unfold generate_answer. rewrite no_context_blank, Hb.
  assert (0 < match context with
              | "" => 0
              | String _ _ => Z.of_nat (Str.count context "---") + 1
              end) as Hpos.
  { destruct context; [done|lia]. }
  destruct (generate_content _) as [[[|c s]|]|e]; cbn;
    (split; [done|]; right; split; [exact Hpos|]; by exists context).
Qed.

(** X3: the answer of [generate_answer] is the empty string exactly when
    the context is not blank and the service returned a text that is not
    empty but all whitespace; in every other case the answer is a
    non-empty text. *)
Theorem generate_answer_empty_iff question context calls :
  (generate_answer generate_content question context calls).1 = "" <->
  Str.blank context = false /\
  exists text,
    generate_content (full_prompt question context) = Ok (Some text) /\
    text <> "" /\ Str.blank text = true.
Proof.
  unfold generate_answer. rewrite no_context_blank.
  destruct (Str.blank context); cbv beta iota zeta.
  { split; [done|]. by intros [? _]. }
  destruct (generate_content _) as [[[|c s]|]|e] eqn:Hg; cbn [fst].
  - split; [done|]. by intros (_ & text & [= <-] & ? & _).
  - rewrite strip_nil_blank. split.
    + intros Hb. split; [done|]. by exists (String c s).
    + by intros (_ & text & [= <-] & _ & ?).
  - split; [done|]. by intros (_ & text & ? & _).
  - split; [|by intros (_ & text & ? & _)].
    rewrite append_cons. discriminate.
Qed.


End endpoint_facts.

(** * Further facts: saving, looking up and deleting records *)

Section storage_more_facts.

Context {Emb : Type}.
Context (distance : Emb -> Emb -> Q).
Context (embed_documents : list string -> result (list Emb)).
Context (embed_query : string -> result Emb).
Context (generate_content : string -> result (option string)).
Implicit Types (m : gmap string (Chroma.Row Emb)) (db : Chroma.Collection Emb).
Implicit Types (chunks : list Chunk.t) (l : list (string * Chroma.Row Emb)).

Lemma add_rows_inv l m i r :
  fold_left Chroma.add_row l m !! i = Some r -> m !! i = Some r \/ (i, r) ∈ l.
Proof.
  revert m. induction l as [|[j x] l IH]; intros m; [by left|].
  cbn [fold_left]. intros [Hm|Hl]%IH; [|right; by right].
  unfold Chroma.add_row in Hm. cbn in Hm.
  destruct (m !! j) eqn:Hj; [by left|].
  destruct (decide (j = i)) as [->|Hne].
  - rewrite lookup_insert_eq in Hm. injection Hm as ->. right. by left.
  - rewrite lookup_insert_ne in Hm by done. by left.
Qed.

Lemma add_rows_fresh l m i r :
  NoDup l.*1 -> (i, r) ∈ l -> m !! i = None ->
  fold_left Chroma.add_row l m !! i = Some r.
Proof.
  revert m. induction l as [|[j x] l IH]; intros m Hnd Hin Hm.
  { by apply elem_of_nil in Hin. }
  cbn in Hnd. apply NoDup_cons in Hnd as [Hj Hnd]. cbn [fold_left].
  apply elem_of_cons in Hin as [[= <- <-]|Hin].
  - apply add_rows_keep. unfold Chroma.add_row. cbn. rewrite Hm.
    by rewrite lookup_insert_eq.
  - apply IH; [done..|]. unfold Chroma.add_row. cbn.
    destruct (m !! j) eqn:Hmj; [done|]. rewrite lookup_insert_ne; [done|].
    intros ->. apply Hj. by apply (list_elem_of_fmap_2 fst) in Hin.
Qed.

Lemma add_rows_absent l m i :
  m !! i = None -> i ∉ l.*1 -> fold_left Chroma.add_row l m !! i = None.
Proof.
  intros Hm Hi. destruct (fold_left _ _ _ !! i) as [r|] eqn:Hr; [|done].
  apply add_rows_inv in Hr as [?|Hin]; [congruence|].
  destruct Hi. by apply (list_elem_of_fmap_2 fst) in Hin.
Qed.

Lemma batch_chunks doc_metadata chunks (embeddings : list Emb) :
  Chroma.batch (Chunk.chunk_id <$> chunks) (Chunk.text <$> chunks) embeddings
    (chunk_metadata doc_metadata <$> chunks)
  = chunk_row doc_metadata <$> zip chunks embeddings.
Proof.
  revert embeddings. induction chunks as [|c chunks IH]; intros [|e es];
    try done.
  cbn. f_equal. apply IH.
Qed.

Lemma chunk_metadata_doc_id doc_metadata c :
  chunk_metadata doc_metadata c !! "doc_id"
  = Some (Chroma.MStr (UUID.str (Chunk.doc_id c))).
Proof. unfold chunk_metadata. by rewrite lookup_insert_eq. Qed.

Lemma chunk_metadata_page_number doc_metadata c :
  chunk_metadata doc_metadata c !! "page_number"
  = Some (Chroma.MInt (Chunk.page_number c)).
Proof.
  unfold chunk_metadata. rewrite lookup_insert_ne by done.
  by rewrite lookup_insert_eq.
Qed.

Lemma chunk_metadata_filename doc_metadata c :
  chunk_metadata doc_metadata c !! "filename"
  = Some (default (Chroma.MStr "unknown") (doc_metadata !! "filename")).
Proof.
  unfold chunk_metadata. rewrite !lookup_insert_ne by done.
  by rewrite lookup_singleton_eq.
Qed.

(** X5: [save_chunks_to_db] returns normally exactly for the empty list,
    or when the storage is reachable, the identifiers of the batch are
    pairwise distinct and the embedding call returns one vector per
    chunk; in every other case it raises and nothing is written. *)
Theorem save_succeeds_iff chunks doc_metadata db :
  (exists n db',
     save_chunks_to_db embed_documents chunks doc_metadata db = Ok (n, db')) <->
  chunks = [] \/
  (Chroma.online db = true /\ NoDup (Chunk.chunk_id <$> chunks) /\
   exists embeddings,
     embed_documents (Chunk.text <$> chunks) = Ok embeddings /\
     length embeddings = length chunks).
Proof.
  split.
  - intros (n & db' & [(-> & _)|(_ & _ & Hon & Hnd & embs & He & Hl & _)]%save_inv);
      [by left|right]. split; [done|]. split; [done|]. by exists embs.
  - intros [->|(Hon & Hnd & embs & He & Hl)]; [by exists 0, db|].
    destruct chunks as [|c chunks]; [by exists 0, db|].
    eexists _, _. by apply save_ok.
Qed.

(** X6: what a successful save leaves in the collection.  Every record
    stored before is kept as it was; a chunk whose identifier was not
    stored is stored under it with its text, its vector and the metadata
    of its document, page and file; no other identifier appears. *)
Theorem save_stores_chunks chunks doc_metadata db n db' embeddings :
  save_chunks_to_db embed_documents chunks doc_metadata db = Ok (n, db') ->
  embed_documents (Chunk.text <$> chunks) = Ok embeddings ->
  (forall i r, Chroma.rows db !! i = Some r -> Chroma.rows db' !! i = Some r) /\
  (forall k c e,
     chunks !! k = Some c -> embeddings !! k = Some e ->
     Chroma.rows db !! Chunk.chunk_id c = None ->
     Chroma.rows db' !! Chunk.chunk_id c
     = Some {| Chroma.document := Chunk.text c;
               Chroma.embedding := e;
               Chroma.metadata := chunk_metadata doc_metadata c |}) /\
  (forall i, Chroma.rows db !! i = None -> i ∉ Chunk.chunk_id <$> chunks ->
             Chroma.rows db' !! i = None).
Proof.
  intros [(-> & _ & ->)|(_ & _ & _ & Hnd & embs & He & Hl & ->)]%save_inv Hemb.
  { split; [done|]. split; [|done]. intros k c e Hk. by destruct k. }
  rewrite Hemb in He. injection He as <-.
  cbn [Chroma.rows]. unfold rows_after.
  assert ((Chroma.batch (Chunk.chunk_id <$> chunks) (Chunk.text <$> chunks)
             embeddings (chunk_metadata doc_metadata <$> chunks)).*1
          = Chunk.chunk_id <$> chunks) as Hids
    by (apply batch_ids; by rewrite ?length_fmap).
  split; [|split].
  - intros i r Hi. by apply add_rows_keep.
  - intros k c e Hk He Hfresh. apply add_rows_fresh; [by rewrite Hids| |done].
    rewrite batch_chunks. apply (list_elem_of_fmap_2' _ _ (c, e)); [|done].
    apply list_elem_of_lookup. exists k. apply lookup_zip_with_Some.
    by exists c, e.
  - intros i Hi Hnotin. apply add_rows_absent; [done|]. by rewrite Hids.
Qed.

(** X7: saving the chunks of a document and then deleting that document
    leaves the collection that deleting the document from the original
    collection leaves; the records of other documents are not touched by
    the round trip. *)
Theorem delete_after_save chunks doc_metadata db n db1 doc :
  save_chunks_to_db embed_documents chunks doc_metadata db = Ok (n, db1) ->
  Forall (fun c => Chunk.doc_id c = doc) chunks ->
  Chroma.online db = true ->
  delete_document_chunks (UUID.str doc) db1
  = delete_document_chunks (UUID.str doc) db.
Proof.
  intros [(-> & _ & ->)|(_ & _ & Hon & Hnd & embs & He & Hl & ->)]%save_inv
    Hdoc _; [done|].
  destruct db as [on rws]. cbn in Hon. subst on.
  unfold delete_document_chunks, Chroma.get_or_create_collection, Chroma.delete.
  cbn. do 2 f_equal.
  apply map_eq. intros i. rewrite !map_lookup_filter. unfold rows_after.
  cbn [Chroma.rows].
  destruct (rws !! i) as [r|] eqn:Hi.
  { by rewrite (add_rows_keep _ _ _ r Hi). }
  destruct (fold_left _ _ _ !! i) as [r|] eqn:Hr; [|done].
  apply add_rows_inv in Hr as [?|Hin]; [congruence|].
  rewrite batch_chunks in Hin.
  apply list_elem_of_fmap in Hin as ([c e] & [= -> ->] & Hce).
  apply elem_of_zip_l in Hce. cbn [fst snd].
  apply (proj1 (Forall_forall _ _) Hdoc) in Hce. cbn.
  rewrite chunk_metadata_doc_id, Hce.
  rewrite bool_decide_eq_true_2 by done. cbn.
  by rewrite option_guard_False by auto.
Qed.

Lemma filter_none {A} (P : A -> Prop) `{forall x, Decision (P x)} (l : list A) :
  (forall x, x ∈ l -> ~ P x) -> filter P l = [].
Proof.
  induction l as [|x l IH]; intros Hall; [done|].
  rewrite filter_cons_False by (apply Hall; by left).
  apply IH. intros y Hy. apply Hall. by right.
Qed.

(** X8: after a successful [delete_document_chunks] of a non-empty
    document identifier, a query filtered to that document finds nothing:
    the context is the empty string and the endpoint answers with the
    refusal, 0 sources and no call to the generation service. *)
Theorem deleted_document_has_no_context did db db' query e calls :
  did <> "" ->
  delete_document_chunks did db = (true, db') ->
  embed_query query = Ok e ->
  get_context distance embed_query query (Some did) 5 db' = Ok "" /\
  query_documents distance embed_query generate_content
    {| question := query; doc_id := Some did |} db' calls
  = (Response {| answer := NO_INFORMATION;
                 response_question := query;
                 sources_used := 0 |}, calls).
Proof.
  intros Hne Hdel He.
  assert (Chroma.online db' = true /\
          matching db' (where_filter_of (Some did)) = []) as [Hon Hnone].
  { destruct db as [[] rws]; [|done].
    unfold delete_document_chunks, Chroma.get_or_create_collection,
      Chroma.delete in Hdel. cbn in Hdel.
    injection Hdel as <-. split; [done|].
    unfold matching. cbn [Chroma.rows]. apply filter_none.
    intros [i r] [Hr Hkeep]%elem_of_map_to_list%map_lookup_filter_Some.
    destruct did as [|c s]; [done|]. cbn in *. intros Hm.
    by destruct (bool_decide _). }
  assert (get_context distance embed_query query (Some did) 5 db' = Ok "")
    as Hctx by (by apply (get_context_nothing _ _ _ _ _ e)).
  split; [done|]. unfold query_documents. cbn [question doc_id].
  by rewrite Hctx.
Qed.

(** The header rendered for the metadata of a saved chunk. *)
Lemma citation_of_saved_chunk doc_metadata c :
  citation_header (chunk_metadata doc_metadata c)
  = "[Source: " +:+
    Chroma.mvalue_str
      (default (Chroma.MStr "unknown") (doc_metadata !! "filename")) +:+
    ", Page " +:+ pretty (Chunk.page_number c) +:+ "]".
Proof.
  unfold citation_header.
  by rewrite chunk_metadata_filename, chunk_metadata_page_number.
Qed.

Lemma uuid_str_nonempty (u : UUID.t) : UUID.str u <> "".
Proof.
  unfold UUID.str. intros [_ H]%append_nil_inv.
  by rewrite append_cons in H.
Qed.

(** X9: from ingestion to citation.  A chunk saved into an empty
    reachable collection is what a query returns, unfiltered or filtered
    to the chunk's document, and [get_context] renders it as one block:
    the file name of the document metadata ([unknown] without one), the
    page number of the chunk in decimal, the relevance of its vector and,
    on the next line, its text. *)
Theorem saved_chunk_is_cited c doc_metadata db query e_c e filter_doc_id :
  Chroma.online db = true ->
  Chroma.rows db = ∅ ->
  embed_documents [Chunk.text c] = Ok [e_c] ->
  embed_query query = Ok e ->
  filter_doc_id = None \/ filter_doc_id = Some (UUID.str (Chunk.doc_id c)) ->
  exists db1,
    save_chunks_to_db embed_documents [c] doc_metadata db = Ok (1, db1) /\
    get_context distance embed_query query filter_doc_id 5 db1
    = Ok (("[Source: " +:+
           Chroma.mvalue_str
             (default (Chroma.MStr "unknown") (doc_metadata !! "filename")) +:+
           ", Page " +:+ pretty (Chunk.page_number c) +:+ "]" +:+
           " (Relevance: " +:+ format_percent2 (1 - distance e e_c) +:+ ")")
          +:+ Str.LF +:+ Chunk.text c).
Proof.
  intros Hon Hrows Hemb He Hfilter.
  eexists. split.
  { apply (save_ok _ [c] doc_metadata db [e_c]); try done.
    apply NoDup_singleton. }
  rewrite (get_context_hits _ _ _ _ _ _ e) by done.
  unfold Chroma.nearest. cbn [Chroma.rows]. unfold rows_after.
  cbn [fmap list_fmap Chroma.batch fold_left]. unfold Chroma.add_row.
  cbn [fst snd]. rewrite Hrows, lookup_empty, insert_empty.
  rewrite map_to_list_singleton.
  rewrite filter_cons_True, filter_nil.
  - cbn [merge_sort merge_sort_aux merge_list_to_stack merge_stack].
    rewrite list_merge_nil_r. change (Z.to_nat 5) with 5%nat.
    cbn [take fmap list_fmap Str.join]. unfold cited_block.
    cbn [snd Chroma.metadata Chroma.embedding Chroma.document].
    rewrite citation_of_saved_chunk. by rewrite !append_assoc.
  - cbn [snd Chroma.metadata]. destruct Hfilter as [->| ->]; [done|].
    pose proof (uuid_str_nonempty (Chunk.doc_id c)) as Hne.
    destruct (UUID.str (Chunk.doc_id c)) as [|a u] eqn:Hu; [done|].
    cbn. rewrite chunk_metadata_doc_id, Hu. by rewrite bool_decide_eq_true_2.
Qed.

End storage_more_facts.

(** * Further facts: the size and the shape of the chunks *)

Section strip_facts.

Implicit Types (s : string).

Lemma lstrip_length s :
  (String.length (Str.lstrip s) <= String.length s)%nat.
Proof.
  induction s as [|c s IH]; cbn; [done|].
  destruct (Str.isspace c); cbn; lia.
Qed.

Lemma rstrip_length s :
  (String.length (Str.rstrip s) <= String.length s)%nat.
Proof.
  induction s as [|c s IH]; cbn; [done|].
  destruct (Str.rstrip s); [destruct (Str.isspace c)|]; cbn in *; lia.
Qed.

Lemma strip_len s : Str.len (Str.strip s) <= Str.len s.
Proof.
  unfold Str.len, Str.strip.
  pose proof (rstrip_length (Str.lstrip s)). pose proof (lstrip_length s). lia.
Qed.

Lemma rstrip_idem s : Str.rstrip (Str.rstrip s) = Str.rstrip s.
Proof.
  induction s as [|c s IH]; [done|]. cbn [Str.rstrip].
  destruct (Str.rstrip s) as [|d r] eqn:Hr.
  - destruct (Str.isspace c) eqn:Hc; [done|]. cbn. by rewrite Hc.
  - cbn [Str.rstrip]. cbn [Str.rstrip] in IH. by rewrite IH.
Qed.

Lemma lstrip_clean s : starts_clean (Str.lstrip s).
Proof.
  induction s as [|c s IH]; [done|]. cbn.
  by destruct (Str.isspace c) eqn:Hc.
Qed.

Lemma rstrip_clean s : starts_clean s -> starts_clean (Str.rstrip s).
Proof.
  destruct s as [|c s]; [done|]. cbn. intros Hc.
  destruct (Str.rstrip s); [by rewrite Hc|done].
Qed.

Lemma lstrip_of_clean s : starts_clean s -> Str.lstrip s = s.
Proof. destruct s as [|c s]; [done|]. cbn. by intros ->. Qed.

(** Stripping twice is stripping once. *)
Lemma strip_idem s : trimmed (Str.strip s).
Proof.
  unfold trimmed, Str.strip.
  rewrite (lstrip_of_clean (Str.rstrip (Str.lstrip s)))
    by apply rstrip_clean, lstrip_clean.
  apply rstrip_idem.
Qed.

End strip_facts.

Section chunk_bounds.

Variable self : TextSplitter.t.
Variable P : string -> Prop.
Hypothesis Hdoc :
  forall s, Str.blank s = false -> Str.len s <= TextSplitter.chunk_size self ->
            P (Str.strip s).
Hypothesis Hraw :
  forall s, Str.len s = 1 -> TextSplitter.chunk_size self <= 1 -> P s.

Abbreviation size := (TextSplitter.chunk_size self).
Abbreviation short := (fun s => Str.len s < TextSplitter.chunk_size self).

Lemma pop_front_fits cur d :
  Str.len d < size ->
  (TextSplitter.pop_front self 0 (Str.len d) cur
     (Str.len (Str.join "" cur))).2 + Str.len d <= size.
Proof.
  intros Hd. induction cur as [|d0 cur IH].
  { cbn. change (Str.len "") with 0. lia. }
  cbn [TextSplitter.pop_front].
  destruct (_ || _) eqn:Hcond.
  - rewrite sep_if_0, Z.add_0_r, join_empty_cons, len_append.
    replace (Str.len d0 + Str.len (Str.join "" cur) - Str.len d0)
      with (Str.len (Str.join "" cur)) by lia.
    apply IH.
  - apply orb_false_iff in Hcond as [_ Hcond]. cbn [snd].
    rewrite sep_if_0, Z.add_0_r in Hcond.
    pose proof (len_nonneg (Str.join "" (d0 :: cur))).
    apply andb_false_iff in Hcond as [Hc|Hc].
    + by destruct (Z.gtb_spec (Str.len (Str.join "" (d0 :: cur)) + Str.len d)
                     size); [|lia].
    + destruct (Z.gtb_spec (Str.len (Str.join "" (d0 :: cur))) 0); [done|].
      lia.
Qed.

Lemma join_docs_bound cur docs :
  Forall P docs -> Str.len (Str.join "" cur) <= size ->
  Forall P match TextSplitter.join_docs cur "" with
           | Some doc => docs ++ [doc]
           | None => docs
           end.
Proof.
  intros Hdocs Hfit. rewrite join_docs_empty_sep.
  destruct (Str.blank _) eqn:Hb; [done|].
  apply Forall_app. split; [done|]. constructor; [|done]. by apply Hdoc.
Qed.

Lemma merge_step_bound docs cur d :
  Forall P docs -> Str.len (Str.join "" cur) <= size -> Str.len d < size ->
  exists docs' cur',
    TextSplitter.merge_step self "" (docs, cur, Str.len (Str.join "" cur)) d
    = (docs', cur', Str.len (Str.join "" cur')) /\
    Forall P docs' /\ Str.len (Str.join "" cur') <= size.
Proof.
  intros Hdocs Hfit Hd. unfold TextSplitter.merge_step.
  change (Str.len "") with 0. rewrite sep_if_0, Z.add_0_r.
  destruct (_ && _) eqn:Hcond.
  - pose proof (pop_front_total self (Str.len d) cur) as Htotal.
    pose proof (pop_front_fits cur d Hd) as Hpop. cbn zeta in Htotal.
    destruct (TextSplitter.pop_front _ _ _ _ _) as [cur' total'].
    cbn [fst snd] in *. subst total'.
    eexists _, (cur' ++ [d]). split; [|split].
    + f_equal. rewrite sep_if_0, join_empty_app, len_append. cbn [Str.join].
      lia.
    + by apply join_docs_bound.
    + rewrite join_empty_app, len_append. cbn [Str.join]. lia.
  - eexists docs, (cur ++ [d]). split; [|split; [done|]].
    + f_equal. rewrite sep_if_0, join_empty_app, len_append. cbn [Str.join].
      lia.
    + rewrite join_empty_app, len_append. cbn [Str.join].
      apply andb_false_iff in Hcond as [Hc|Hc].
      * by destruct (Z.gtb_spec (Str.len (Str.join "" cur) + Str.len d) size);
          [|lia].
      * destruct cur; [cbn; change (Str.len "") with 0; lia|done].
Qed.

Lemma merge_fold_bound splits docs cur :
  Forall short splits ->
  Forall P docs -> Str.len (Str.join "" cur) <= size ->
  exists docs' cur',
    fold_left (TextSplitter.merge_step self "") splits
      (docs, cur, Str.len (Str.join "" cur))
    = (docs', cur', Str.len (Str.join "" cur')) /\
    Forall P docs' /\ Str.len (Str.join "" cur') <= size.
Proof.
  intros Hsplits. revert docs cur.
  induction Hsplits as [|d splits Hd _ IH]; intros docs cur Hdocs Hfit.
  - by exists docs, cur.
  - cbn [fold_left].
    destruct (merge_step_bound docs cur d Hdocs Hfit Hd)
      as (docs' & cur' & -> & Hdocs' & Hfit').
    by apply IH.
Qed.

(** Merging pieces that are shorter than the chunk size gives chunks
    with the property [P]. *)
Lemma merge_splits_bound splits :
  0 < size -> Forall short splits ->
  Forall P (TextSplitter.merge_splits self splits "").
Proof.
  intros Hsize Hsplits. unfold TextSplitter.merge_splits.
  destruct (merge_fold_bound splits [] [] Hsplits)
    as (docs & cur & Hfold & Hdocs & Hfit);
    [done|cbn; change (Str.len "") with 0; lia|].
  change 0 with (Str.len (Str.join "" [])). rewrite Hfold.
  by apply join_docs_bound.
Qed.

Lemma split_fold_bound finer sep text splits final_chunks good_splits :
  0 < size ->
  finer_bounded P finer sep ->
  (forall s, s ∈ splits -> s ∈ TextSplitter.split_text_with_regex text sep) ->
  Forall P final_chunks -> Forall short good_splits ->
  exists final_chunks' good_splits',
    fold_left (TextSplitter.split_step self finer) splits
      (final_chunks, good_splits)
    = (final_chunks', good_splits') /\
    Forall P final_chunks' /\ Forall short good_splits'.
Proof.
  intros Hsize Hfiner. revert final_chunks good_splits.
  induction splits as [|s splits IH]; intros final good Hsplits Hfinal Hgood.
  - by exists final, good.
  - cbn [fold_left]. unfold TextSplitter.split_step at 2.
    assert (forall t, t ∈ splits ->
              t ∈ TextSplitter.split_text_with_regex text sep) as Hrest.
    { intros t Ht. apply Hsplits. by right. }
    destruct (Z.ltb_spec (Str.len s) size) as [Hs|Hge].
    { apply IH; [done..|]. apply Forall_app. split; [done|]. by constructor. }
    assert (Forall P (if TextSplitter.nonempty good
                      then final ++ TextSplitter.merge_splits self good ""
                      else final)) as Hfinal'.
    { destruct (TextSplitter.nonempty good); [|done].
      apply Forall_app. split; [done|]. by apply merge_splits_bound. }
    destruct finer as [other|]; cbn in Hfiner.
    + apply IH; [done| |done]. apply Forall_app. split; [done|apply Hfiner].
    + subst sep. apply IH; [done| |done]. apply Forall_app. split; [done|].
      constructor; [|done]. assert (s ∈ s :: splits) as Hin by by left.
      apply Hsplits in Hin. unfold TextSplitter.split_text_with_regex in Hin.
      apply list_elem_of_filter in Hin as [_ Hin%chars_len].
      apply Hraw; [done|lia].
Qed.

Lemma split_with_bound finer sep text :
  0 < size -> finer_bounded P finer sep ->
  Forall P (TextSplitter.split_with self finer sep text).
Proof.
  intros Hsize Hfiner. unfold TextSplitter.split_with.
  destruct (split_fold_bound finer sep text
              (TextSplitter.split_text_with_regex text sep) [] [] Hsize Hfiner)
    as (final & good & -> & Hfinal & Hgood); [done..|].
  destruct (TextSplitter.nonempty good); [|done].
  apply Forall_app. split; [done|]. by apply merge_splits_bound.
Qed.

Lemma split_text_rec_bound last separators text :
  0 < size -> "" ∈ separators ->
  Forall P (TextSplitter.split_text_rec self last separators text).
Proof.
  intros Hsize Hin. revert text.
  induction separators as [|s seps IH]; intros text.
  { by apply elem_of_nil in Hin. }
  cbn [TextSplitter.split_text_rec]. case_decide as Hs.
  { by apply split_with_bound. }
  assert ("" ∈ seps) as Hin'.
  { apply elem_of_cons in Hin as [?|?]; [congruence|done]. }
  destruct (Str.contains s text); [|by apply IH].
  apply split_with_bound; [done|].
  destruct seps; [by apply elem_of_nil in Hin'|].
  cbn. intros t. by apply IH.
Qed.

End chunk_bounds.

Section chunker_more_facts.

Implicit Types (pages : list Page.t) (doc : UUID.t) (chunks : list Chunk.t).

Lemma chunk_document_inv pages doc chunk_size chunk_overlap chunks :
  chunk_document pages doc chunk_size chunk_overlap = Ok chunks ->
  0 < chunk_size /\ 0 <= chunk_overlap <= chunk_size /\
  chunks = pages ≫= page_chunks
             (TextSplitter.mk chunk_size chunk_overlap chunk_separators) doc.
Proof.
  unfold chunk_document, TextSplitter.RecursiveCharacterTextSplitter.
  destruct (Z.leb_spec chunk_size 0); [done|].
  destruct (Z.ltb_spec chunk_overlap 0); [done|].
  destruct (Z.gtb_spec chunk_overlap chunk_size); [done|].
  cbn [mbind result_bind]. rewrite chunk_fold_spec. intros [= <-].
  split; [done|]. split; [lia|done].
Qed.

Lemma chunk_separators_last : "" ∈ chunk_separators.
Proof.
  unfold chunk_separators.
  do 4 apply list_elem_of_further. apply list_elem_of_here.
Qed.

(** X10: the size and shape of every chunk [chunk_document] returns: its
    text is not empty and not longer than the chunk size, and for a chunk
    size of at least two it has no leading or trailing whitespace.  The
    separator list ends in the split into characters, so no piece is ever
    too long to be cut. *)
Theorem chunk_texts_bounded pages doc chunk_size chunk_overlap chunks :
  chunk_document pages doc chunk_size chunk_overlap = Ok chunks ->
  Forall (fun c =>
            Chunk.text c <> "" /\
            Str.len (Chunk.text c) <= chunk_size /\
            (1 < chunk_size -> trimmed (Chunk.text c)))
    chunks.
Proof.
  intros (Hsize & Hoverlap & ->)%chunk_document_inv.
  set (sp := TextSplitter.mk chunk_size chunk_overlap chunk_separators).
  apply Forall_forall. intros c (page & Hc & _)%list_elem_of_bind.
  apply page_chunks_elem in Hc as (idx & Hidx & _).
  apply list_elem_of_lookup_2 in Hidx. revert Hidx.
  generalize (Chunk.text c). intros t Ht.
  assert (Forall (fun s => s <> "" /\ Str.len s <= chunk_size)
            (TextSplitter.split_text sp (Page.text page))) as Hbound.
  { apply split_text_rec_bound; [| |done|apply chunk_separators_last].
    - intros s Hb Hlen. split.
      + intros Hs%strip_nil_blank. congruence.
      + pose proof (strip_len s). cbn in Hlen. lia.
    - intros s Hs _. split; [by destruct s|]. cbn. lia. }
  apply (proj1 (Forall_forall _ _) Hbound) in Ht as Hbt.
  destruct Hbt as [Hne Hlen]. split; [done|]. split; [done|].
  intros Hbig.
  assert (Forall trimmed (TextSplitter.split_text sp (Page.text page)))
    as Htrim.
  { apply split_text_rec_bound; [| |done|apply chunk_separators_last].
    - intros s _ _. apply strip_idem.
    - intros s _ Hsmall. cbn in Hsmall. exfalso; lia. }
  by apply (proj1 (Forall_forall _ _) Htrim) in Ht.
Qed.

Lemma extract_pages_from_spec idx reader_pages page :
  page ∈ extract_pages_from idx reader_pages <->
  exists k raw,
    reader_pages !! k = Some (Ok (Some raw)) /\ Str.strip raw <> "" /\
    page = Page.mk (Str.strip raw) (Z.of_nat (idx + k) + 1).
Proof.
  revert idx. induction reader_pages as [|outcome rest IH]; intros idx.
  { cbn. rewrite elem_of_nil. split; [done|]. by intros (k & raw & ? & _). }
  assert ((exists k raw,
             (outcome :: rest) !! k = Some (Ok (Some raw)) /\
             Str.strip raw <> "" /\
             page = Page.mk (Str.strip raw) (Z.of_nat (idx + k) + 1)) <->
          (exists raw, outcome = Ok (Some raw) /\ Str.strip raw <> "" /\
                       page = Page.mk (Str.strip raw) (Z.of_nat idx + 1)) \/
          page ∈ extract_pages_from (S idx) rest) as ->.
  { rewrite IH. split.
    - intros ([|k] & raw & Hk & Hne & ->).
      + left. exists raw. injection Hk as ->. by rewrite Nat.add_0_r.
      + right. exists k, raw. split; [done|]. split; [done|].
        do 3 f_equal. lia.
    - intros [(raw & -> & Hne & ->)|(k & raw & Hk & Hne & ->)].
      + exists 0%nat, raw. by rewrite Nat.add_0_r.
      + exists (S k), raw. split; [done|]. split; [done|].
        do 3 f_equal. lia. }
  cbn [extract_pages_from].
  destruct outcome as [[text|]|e].
  - case_decide as Hs.
    + split; [by right|]. intros [(raw & [= <-] & Hne & _)|?]; done.
    + rewrite elem_of_cons. split.
      * intros [->|?]; [left; by exists text|by right].
      * intros [(raw & [= <-] & _ & ->)|?]; [by left|by right].
  - split; [by right|]. by intros [(raw & ? & _)|?].
  - split; [by right|]. by intros [(raw & ? & _)|?].
Qed.

(** X11: which pages [extract_pdf_pages] returns.  A page is returned
    exactly when the reader page at that position yields a text that is
    not blank; it carries the trimmed text and the 1-based position.
    Pages whose extraction raises, yields nothing or yields whitespace
    are skipped without shifting the numbers of the later pages. *)
Theorem extract_pdf_pages_spec reader_pages page :
  page ∈ extract_pdf_pages reader_pages <->
  exists k raw,
    reader_pages !! k = Some (Ok (Some raw)) /\ Str.strip raw <> "" /\
    page = Page.mk (Str.strip raw) (Z.of_nat k + 1).
Proof. apply (extract_pages_from_spec 0). Qed.

End chunker_more_facts.

(** * Further facts: the answer with history, the remote embedding
    function and the upload endpoint *)

Section rest_facts.

Context {Emb : Type}.
Context (distance : Emb -> Emb -> Q).
Context (embed_documents : list string -> result (list Emb)).
Context (embed_query : string -> result Emb).
Context (generate_content : string -> result (option string)).
Context (embed_content : string -> string -> result Emb).
Implicit Types (db : Chroma.Collection Emb) (chunks : list Chunk.t).

Lemma last_items_app {A} (older recent : list A) n :
  (n <= length recent)%nat ->
  last_items n (older ++ recent) = last_items n recent.
Proof.
  intros Hn. unfold last_items. rewrite length_app.
  replace (length older + length recent - n)%nat
    with (length older + (length recent - n))%nat by lia.
  apply drop_app_add.
Qed.

Lemma history_str_some (turns : list Turn) :
  turns <> [] ->
  history_str (Some turns) = Str.join Str.LF (history_parts turns).
Proof. by destruct turns. Qed.

(** X12: [generate_answer_with_history] refuses on a blank context
    without calling the service, and only the last five turns of the
    history reach the prompt: a history and its last five turns (or
    more) give the same prompt, the same call and the same answer. *)
Theorem old_turns_are_ignored question context calls :
  (Str.blank context = true ->
   forall chat_history,
     generate_answer_with_history generate_content question context
       chat_history calls = (NO_INFORMATION, calls)) /\
  (forall older recent : list Turn,
     (5 <= length recent)%nat ->
     generate_answer_with_history generate_content question context
       (Some (older ++ recent)) calls
     = generate_answer_with_history generate_content question context
         (Some recent) calls).
Proof.
  split.
  - intros Hb chat_history. unfold generate_answer_with_history.
    by rewrite no_context_blank, Hb.
  - intros older recent Hlen.
    assert (full_prompt_with_history question context (Some (older ++ recent))
            = full_prompt_with_history question context (Some recent)) as Hp.
    { unfold full_prompt_with_history.
      rewrite !history_str_some.
      - unfold history_parts. by rewrite last_items_app.
      - intros ->. cbn in Hlen. lia.
      - intros [_ ->]%app_eq_nil. cbn in Hlen. lia. }
    unfold generate_answer_with_history. by rewrite Hp.
Qed.

Lemma embed_each_spec texts acc :
  match embed_each embed_content texts acc with
  | Ok embeddings =>
      exists new,
        embeddings = acc ++ new /\
        Forall2 (fun text e => embed_content "retrieval_document" text = Ok e)
          texts new
  | Raise e =>
      exists k text,
        texts !! k = Some text /\
        embed_content "retrieval_document" text = Raise e /\
        forall j text', (j < k)%nat -> texts !! j = Some text' ->
          exists e', embed_content "retrieval_document" text' = Ok e'
  end.
Proof.
  revert acc. induction texts as [|text texts IH]; intros acc.
  { cbn. exists []. by rewrite app_nil_r. }
  cbn [embed_each].
  destruct (embed_content "retrieval_document" text) as [e0|e0] eqn:He0;
    cbn [mbind result_bind].
  - specialize (IH (acc ++ [e0])).
    destruct (embed_each _ _ _) as [embeddings|e].
    + destruct IH as (new & -> & Hnew). exists (e0 :: new).
      split; [by rewrite <-app_assoc|]. by constructor.
    + destruct IH as (k & t & Hk & Ht & Hbefore). exists (S k), t.
      split; [done|]. split; [done|].
      intros [|j] text' Hj Hlook.
      * injection Hlook as <-. by exists e0.
      * apply (Hbefore j); [lia|done].
  - exists 0%nat, text. split; [done|]. split; [done|]. intros j ? ?. lia.
Qed.

(** X13: [GeminiEmbeddingFunction] returns one vector per input text, in
    order, each the result of the service for that text; or it raises the
    exception of the first text the service fails on. *)
Theorem GeminiEmbeddingFunction_spec texts :
  match GeminiEmbeddingFunction embed_content texts with
  | Ok embeddings =>
      length embeddings = length texts /\
      Forall2 (fun text e => embed_content "retrieval_document" text = Ok e)
        texts embeddings
  | Raise e =>
      exists k text,
        texts !! k = Some text /\
        embed_content "retrieval_document" text = Raise e /\
        forall j text', (j < k)%nat -> texts !! j = Some text' ->
          exists e', embed_content "retrieval_document" text' = Ok e'
  end.
Proof.
  unfold GeminiEmbeddingFunction.
  pose proof (embed_each_spec texts []) as Hspec.
  destruct (embed_each _ _ _) as [embeddings|e]; [|done].
  destruct Hspec as (new & -> & Hnew). cbn. split; [|done].
  symmetry. by eapply Forall2_length.
Qed.

(** X14: with the remote embedding function, a save of a non-empty batch
    goes through exactly when the storage is reachable, the identifiers
    are pairwise distinct and the service embeds every chunk text; the
    number of vectors never mismatches the number of chunks. *)
Theorem gemini_save_succeeds_iff chunks doc_metadata db :
  chunks <> [] ->
  (exists db',
     gemini_save_chunks_to_db embed_content chunks doc_metadata db
     = Ok (Z.of_nat (length chunks), db')) <->
  Chroma.online db = true /\ NoDup (Chunk.chunk_id <$> chunks) /\
  Forall (fun c => exists e,
            embed_content "retrieval_document" (Chunk.text c) = Ok e) chunks.
Proof.
  intros Hne. unfold gemini_save_chunks_to_db.
  pose proof (embed_each_spec (Chunk.text <$> chunks) []) as Hspec.
  fold (GeminiEmbeddingFunction embed_content (Chunk.text <$> chunks)) in Hspec.
  split.
  - intros (db' & [(-> & _)|(_ & _ & Hon & Hnd & embs & He & _)]%save_inv);
      [done|].
    split; [done|]. split; [done|]. rewrite He in Hspec.
    destruct Hspec as (new & _ & Hall). apply Forall_forall. intros c Hc.
    apply (list_elem_of_fmap_2 Chunk.text) in Hc.
    apply list_elem_of_lookup in Hc as [k Hk].
    destruct (Forall2_lookup_l _ _ _ _ _ Hall Hk) as (e & _ & He').
    by exists e.
  - intros (Hon & Hnd & Hall).
    destruct (GeminiEmbeddingFunction embed_content (Chunk.text <$> chunks))
      as [embs|e] eqn:He.
    + destruct Hspec as (new & -> & Hnew). eexists.
      apply (save_ok _ _ _ _ _ Hne Hon He); [|done].
      apply Forall2_length in Hnew. cbn. by rewrite <-Hnew, length_fmap.
    + destruct Hspec as (k & text & Hk & Hfail & _).
      apply list_lookup_fmap_Some in Hk as (c & -> & Hc).
      apply list_elem_of_lookup_2 in Hc.
      apply (proj1 (Forall_forall _ _) Hall) in Hc as [e' He'].
      congruence.
Qed.

Lemma has_char_lstrip c s :
  has_char c s = false -> has_char c (Str.lstrip s) = false.
Proof.
  induction s as [|d s IH]; [done|]. cbn.
  intros [Hd Hs]%orb_false_iff. destruct (Str.isspace d); [by apply IH|].
  cbn. by rewrite Hd, Hs.
Qed.

Lemma has_char_rstrip c s :
  has_char c s = false -> has_char c (Str.rstrip s) = false.
Proof.
  induction s as [|d s IH]; [done|]. cbn.
  intros [Hd Hs]%orb_false_iff. specialize (IH Hs).
  destruct (Str.rstrip s); [destruct (Str.isspace d)|]; cbn in *;
    by rewrite ?Hd, ?IH.
Qed.

Lemma split_char_free sep s :
  Forall (fun piece => has_char sep piece = false) (split_char sep s).
Proof.
  induction s as [|c s IH]; [by constructor|]. cbn [split_char].
  destruct (Ascii.eqb c sep) eqn:Hc; [by constructor|].
  destruct (split_char sep s) as [|p ps].
  { constructor; [|done]. cbn. by rewrite Ascii.eqb_sym, Hc. }
  inversion IH as [|?? Hp Hps]; subst. constructor; [|done].
  cbn. by rewrite Ascii.eqb_sym, Hc, Hp.
Qed.

(** X15: the tags of an upload.  No parsed tag is empty, has leading or
    trailing whitespace, or holds a comma; and a tag string without a
    comma gives its trimmed text as the only tag, or no tag when it is
    blank. *)
Theorem parse_tags_spec tags :
  Forall (fun tag => tag <> "" /\ trimmed tag /\ has_char "," tag = false)
    (parse_tags tags) /\
  (has_char "," tags = false ->
   parse_tags tags
   = if Str.blank tags then [] else [Str.strip tags]).
Proof.
  split.
  - unfold parse_tags. destruct tags as [|c s]; [done|].
    apply Forall_forall. intros tag (piece & Hpiece & Htag)%list_elem_of_omap.
    case_decide as Hs; [done|]. injection Htag as <-.
    split; [done|]. split; [apply strip_idem|].
    apply has_char_rstrip, has_char_lstrip.
    by apply (proj1 (Forall_forall _ _) (split_char_free "," (String c s))).
  - intros Hfree. unfold parse_tags. destruct tags as [|c s]; [done|].
    assert (split_char "," (String c s) = [String c s]) as ->.
    { revert Hfree. generalize (String c s). clear. intros s.
      induction s as [|d s IH]; [done|]. cbn [has_char split_char].
      intros [Hd Hs]%orb_false_iff. rewrite Ascii.eqb_sym in Hd.
      by rewrite Hd, IH. }
    cbn [omap list_omap]. case_decide as Hs.
    + apply strip_nil_blank in Hs. by rewrite Hs.
    + destruct (Str.blank (String c s)) eqn:Hb; [|done].
      by apply strip_nil_blank in Hb.
Qed.

End rest_facts.

(** * Further facts: the [/upload] endpoint *)

Section upload_facts.

Context {Emb : Type}.
Context (embed_documents : list string -> result (list Emb)).
Implicit Types (m : gmap string (Chroma.Row Emb)) (db : Chroma.Collection Emb).
Implicit Types (chunks : list Chunk.t) (l : list (string * Chroma.Row Emb)).

Lemma add_rows_size l m :
  NoDup l.*1 -> (forall i, i ∈ l.*1 -> m !! i = None) ->
  size (fold_left Chroma.add_row l m) = (size m + length l)%nat.
Proof.
  revert m. induction l as [|[j x] l IH]; intros m Hnd Hfresh.
  { cbn. lia. }
  cbn in Hnd. apply NoDup_cons in Hnd as [Hj Hnd]. cbn [fold_left].
  assert (Chroma.add_row m (j, x) = <[j := x]> m) as ->.
  { unfold Chroma.add_row. cbn. rewrite Hfresh; [done|]. cbn. by left. }
  rewrite IH; [|done|].
  - rewrite map_size_insert_None by (apply Hfresh; cbn; by left). cbn. lia.
  - intros i Hi. rewrite lookup_insert_ne by (intros ->; done).
    apply Hfresh. cbn. by right.
Qed.

Lemma rows_after_fresh doc_metadata chunks (embeddings : list Emb) db k c e :
  NoDup (Chunk.chunk_id <$> chunks) ->
  length embeddings = length chunks ->
  chunks !! k = Some c -> embeddings !! k = Some e ->
  Chroma.rows db !! Chunk.chunk_id c = None ->
  rows_after doc_metadata chunks embeddings db !! Chunk.chunk_id c
  = Some {| Chroma.document := Chunk.text c;
            Chroma.embedding := e;
            Chroma.metadata := chunk_metadata doc_metadata c |}.
Proof.
  intros Hnd Hlen Hk He Hfresh. unfold rows_after.
  apply add_rows_fresh; [|..|done].
  - rewrite batch_ids; by rewrite ?length_fmap.
  - rewrite batch_chunks. apply (list_elem_of_fmap_2' _ _ (c, e)); [|done].
    apply list_elem_of_lookup. exists k. apply lookup_zip_with_Some.
    by exists c, e.
Qed.

(** X16: what [/upload] can answer.  An error (400 or 500) leaves the
    collection as it was.  A success means the name ends in [.pdf] in any
    letter case, the file was written and read and some page had text;
    the response carries the given identifier, name and flag, the parsed
    tags and the page count of the reader; without indexing the chunk
    count is 0 and the collection is unchanged, with indexing the chunk
    count is the number of chunks handed to a save that went through. *)
Theorem upload_document_outcome filename tags indexed_to_kb doc uploaded_at
    written reader db :
  let out :=
    upload_document embed_documents filename tags indexed_to_kb doc
      uploaded_at written reader db in
  match out.1 with
  | UploadError status_code detail =>
      out.2 = db /\ (status_code = 400 \/ status_code = 500)
  | Uploaded r =>
      endswith (lower filename) ".pdf" = true /\
      (exists u, written = Ok u) /\
      exists pages,
        reader = ReaderPages pages /\ extract_pdf_pages pages <> [] /\
        r = UploadResponse.mk "success" (UUID.str doc) filename uploaded_at
              (parse_tags tags) indexed_to_kb (get_page_count pages)
              (UploadResponse.chunks_count r) /\
        if indexed_to_kb then
          exists chunks,
            chunk_document (extract_pdf_pages pages) doc 1000 200 = Ok chunks /\
            save_chunks_to_db embed_documents chunks
              (upload_metadata doc filename (get_page_count pages)) db
            = Ok (UploadResponse.chunks_count r, out.2) /\
            UploadResponse.chunks_count r = Z.of_nat (length chunks)
        else UploadResponse.chunks_count r = 0 /\ out.2 = db
  end.
Proof.
  cbn zeta. unfold upload_document.
  destruct (endswith (lower filename) ".pdf") eqn:Hpdf; cbn [negb];
    [|by cbn; auto].
  unfold ingest_upload.
  destruct written as [u|e]; cbn [mbind result_bind]; [|by cbn; auto].
  destruct reader as [pages|msg|msg]; cbn [extract_pdf_pages_of
    get_page_count_of mbind result_bind]; [|by cbn; auto..].
  destruct (extract_pdf_pages pages) as [|page rest] eqn:Hpages;
    [by cbn; auto|].
  destruct indexed_to_kb; cbn [mbind result_bind].
  - destruct (chunk_document _ _ _ _) as [chunks|e] eqn:Hchunks;
      cbn [mbind result_bind]; [|by cbn; auto].
    destruct (save_chunks_to_db _ _ _ _) as [[n db']|e] eqn:Hsave;
      cbn [mbind result_bind fst snd]; [|by cbn; auto].
    split; [done|]. split; [eexists; reflexivity|]. exists pages.
    split; [done|]. split; [by rewrite Hpages|]. split; [reflexivity|].
    exists chunks. cbn [UploadResponse.chunks_count]. rewrite Hpages.
    split; [done|]. split; [done|].
    by apply save_inv in Hsave as [(-> & -> & _)|(_ & -> & _)].
  - split; [done|]. split; [eexists; reflexivity|]. exists pages.
    split; [done|]. split; [by rewrite Hpages|]. split; [reflexivity|done].
Qed.

(** X17: an indexed upload goes through and stores the whole document.
    For a name ending in [.pdf], a file written and read with text on
    some page, a reachable storage and an embedding call that returns one
    vector per chunk, the upload succeeds whatever the pages hold: the
    chunk identifiers of one document never collide.  The chunk count is
    the number of chunks, the page count that of the reader, and with a
    document identifier not seen before every chunk is stored with its
    text and the collection grows by the chunk count. *)
Theorem upload_indexes_document filename tags doc uploaded_at pages db
    embeddings :
  let sp := TextSplitter.mk 1000 200 chunk_separators in
  let chunks := extract_pdf_pages pages ≫= page_chunks sp doc in
  endswith (lower filename) ".pdf" = true ->
  extract_pdf_pages pages <> [] ->
  Chroma.online db = true ->
  embed_documents (Chunk.text <$> chunks) = Ok embeddings ->
  length embeddings = length chunks ->
  exists r db',
    upload_document embed_documents filename tags true doc uploaded_at
      (Ok ()) (ReaderPages pages) db = (Uploaded r, db') /\
    UploadResponse.chunks_count r = Z.of_nat (length chunks) /\
    UploadResponse.page_count r = get_page_count pages /\
    Forall (fun c => 1 <= Chunk.page_number c <= UploadResponse.page_count r)
      chunks /\
    ((forall c, c ∈ chunks -> Chroma.rows db !! Chunk.chunk_id c = None) ->
     size (Chroma.rows db') = (size (Chroma.rows db) + length chunks)%nat /\
     forall c, c ∈ chunks ->
       Chroma.document <$> Chroma.rows db' !! Chunk.chunk_id c
       = Some (Chunk.text c)).
Proof.
  intros sp chunks Hpdf Hpages Hon Hemb Hlen.
  destruct (extract_pdf_pages_numbers pages) as [Hnd Hrange].
  assert (NoDup (Chunk.chunk_id <$> chunks)) as Hids
    by by apply chunk_ids_NoDup.
  assert (Forall (fun c => 1 <= Chunk.page_number c <= get_page_count pages)
            chunks) as Hpn.
  { apply Forall_forall. intros c (page & Hc & Hpage)%list_elem_of_bind.
    apply page_chunks_elem in Hc as (idx & _ & ->). cbn.
    by apply (proj1 (Forall_forall _ _) Hrange). }
  assert (chunk_document (extract_pdf_pages pages) doc 1000 200 = Ok chunks)
    as Hcd by (by apply chunk_document_ok).
  clearbody chunks.
  unfold upload_document. rewrite Hpdf. cbn [negb]. unfold ingest_upload.
  cbn [mbind result_bind extract_pdf_pages_of get_page_count_of].
  destruct (extract_pdf_pages pages) as [|page rest] eqn:Hex; [done|].
  rewrite Hcd. cbn [mbind result_bind].
  destruct (decide (chunks = [])) as [->|Hsome].
  { cbn. eexists _, _. split; [done|]. cbn. split; [done|]. split; [done|].
    split; [done|]. intros _. split; [lia|]. by intros c ?%elem_of_nil. }
  rewrite (save_ok _ chunks _ _ embeddings) by done.
  cbn [mbind result_bind fst snd]. eexists _, _. split; [done|].
  cbn [UploadResponse.chunks_count UploadResponse.page_count Chroma.rows].
  split; [done|]. split; [done|]. split; [done|].
  intros Hfresh. split.
  - unfold rows_after. rewrite add_rows_size.
    + rewrite batch_chunks, length_fmap, length_zip_with. lia.
    + rewrite batch_ids; by rewrite ?length_fmap.
    + rewrite batch_ids by (by rewrite ?length_fmap).
      intros i (c & -> & Hc)%list_elem_of_fmap. by apply Hfresh.
  - intros c Hc. apply list_elem_of_lookup in Hc as Hk. destruct Hk as [k Hk].
    destruct (lookup_lt_is_Some_2 embeddings k) as [e He].
    { rewrite Hlen. by eapply lookup_lt_Some. }
    rewrite (rows_after_fresh _ _ _ _ k c e); auto.
Qed.

End upload_facts.

(** * Further facts: no text is lost by chunking *)

Section coverage_facts.

Implicit Types (s t text sep : string) (l splits cur docs : list string).
Implicit Types (self : TextSplitter.t).

Lemma blank_join_Forall l :
  Str.blank (Str.join "" l) = true -> Forall (fun s => Str.blank s = true) l.
Proof.
  rewrite blank_join. induction l as [|s l IH]; [done|]. cbn.
  intros [??]%andb_true_iff. constructor; auto.
Qed.

Lemma join_docs_none_blank cur :
  TextSplitter.join_docs cur "" = None ->
  Forall (fun s => Str.blank s = true) cur.
Proof.
  rewrite join_docs_empty_sep. destruct (Str.blank _) eqn:Hb; [|done].
  intros _. by apply blank_join_Forall.
Qed.

(** One step of the merge loop loses no text: when no chunk has been
    emitted, a piece that left the window is blank. *)
Lemma merge_step_keeps self docs cur total d docs' cur' total' :
  TextSplitter.merge_step self "" (docs, cur, total) d = (docs', cur', total') ->
  docs' = [] ->
  docs = [] /\
  forall s, s ∈ cur ++ [d] -> Str.blank s = true \/ s ∈ cur'.
Proof.
  unfold TextSplitter.merge_step. destruct (_ && _).
  - destruct (TextSplitter.pop_front _ _ _ _ _) as [cur1 total1].
    destruct (TextSplitter.join_docs cur "") as [doc|] eqn:Hjoin.
    + intros [= <- _ _] Hnil. by destruct docs.
    + intros [= <- <- _] ->. split; [done|].
      apply join_docs_none_blank in Hjoin.
      intros s [Hs|Hs]%elem_of_app.
      * left. by apply (proj1 (Forall_forall _ _) Hjoin).
      * right. apply elem_of_app. by right.
  - intros [= <- <- _] ->. split; [done|]. intros s Hs. by right.
Qed.

Lemma merge_fold_keeps self splits docs cur total docs' cur' total' :
  fold_left (TextSplitter.merge_step self "") splits (docs, cur, total)
  = (docs', cur', total') ->
  docs' = [] ->
  docs = [] /\
  forall s, s ∈ cur ++ splits -> Str.blank s = true \/ s ∈ cur'.
Proof.
  revert docs cur total. induction splits as [|d splits IH];
    intros docs cur total.
  { cbn. intros [= <- <- _] ->. split; [done|].
    intros s Hs. right. by rewrite app_nil_r in Hs. }
  cbn [fold_left].
  destruct (TextSplitter.merge_step self "" (docs, cur, total) d)
    as [[docs1 cur1] total1] eqn:Hstep.
  intros Hfold Hnil. destruct (IH _ _ _ Hfold Hnil) as [-> Hrest].
  destruct (merge_step_keeps _ _ _ _ _ _ _ _ Hstep eq_refl) as [-> Hhere].
  split; [done|]. intros s Hs.
  assert (s ∈ (cur ++ [d]) ++ splits) as [Hs1|Hs2]%elem_of_app
    by (by rewrite <-app_assoc).
  - destruct (Hhere s Hs1) as [?|Hin]; [by left|].
    apply Hrest, elem_of_app. by left.
  - apply Hrest, elem_of_app. by right.
Qed.

(** Merging gives no chunk only for pieces that are all blank. *)
Lemma merge_splits_nil_blank self splits :
  TextSplitter.merge_splits self splits "" = [] ->
  Forall (fun s => Str.blank s = true) splits.
Proof.
  unfold TextSplitter.merge_splits.
  destruct (fold_left _ _ _) as [[docs cur] total] eqn:Hfold.
  destruct (TextSplitter.join_docs cur "") as [doc|] eqn:Hjoin.
  { intros Hnil. by destruct docs. }
  intros ->. apply join_docs_none_blank in Hjoin.
  destruct (merge_fold_keeps _ _ _ _ _ _ _ _ Hfold eq_refl) as [_ Hall].
  apply Forall_forall. intros s Hs.
  destruct (Hall s) as [?|Hin]; [by rewrite app_nil_l|done|].
  by apply (proj1 (Forall_forall _ _) Hjoin).
Qed.

Lemma split_step_keeps self finer final good s final' good' :
  (forall other, finer = Some other ->
     forall t, other t = [] -> Str.blank t = true) ->
  TextSplitter.split_step self finer (final, good) s = (final', good') ->
  final' = [] ->
  final = [] /\
  forall t, t ∈ good ++ [s] -> Str.blank t = true \/ t ∈ good'.
Proof.
  intros Hfiner. unfold TextSplitter.split_step.
  destruct (_ <? _).
  { intros [= <- <-] ->. split; [done|]. intros t Ht. by right. }
  destruct finer as [other|].
  - intros [= <- <-] [Hleft Hother]%app_eq_nil.
    assert (final = [] /\ Forall (fun t => Str.blank t = true) good)
      as [-> Hgood].
    { destruct (TextSplitter.nonempty good) eqn:Hne.
      - apply app_eq_nil in Hleft as [-> Hm]. split; [done|].
        by apply merge_splits_nil_blank in Hm.
      - split; [done|]. by destruct good. }
    split; [done|]. intros t [Ht|Ht%list_elem_of_singleton]%elem_of_app.
    + left. by apply (proj1 (Forall_forall _ _) Hgood).
    + left. subst t. by apply (Hfiner other).
  - intros [= <- _] Hnil. by apply app_eq_nil in Hnil as [_ ?].
Qed.

Lemma split_fold_keeps self finer splits final good final' good' :
  (forall other, finer = Some other ->
     forall t, other t = [] -> Str.blank t = true) ->
  fold_left (TextSplitter.split_step self finer) splits (final, good)
  = (final', good') ->
  final' = [] ->
  final = [] /\
  forall t, t ∈ good ++ splits -> Str.blank t = true \/ t ∈ good'.
Proof.
  intros Hfiner. revert final good.
  induction splits as [|s splits IH]; intros final good.
  { cbn. intros [= <- <-] ->. split; [done|].
    intros t Ht. right. by rewrite app_nil_r in Ht. }
  cbn [fold_left].
  destruct (TextSplitter.split_step self finer (final, good) s)
    as [final1 good1] eqn:Hstep.
  intros Hfold Hnil. destruct (IH _ _ Hfold Hnil) as [-> Hrest].
  destruct (split_step_keeps _ _ _ _ _ _ _ Hfiner Hstep eq_refl)
    as [-> Hhere].
  split; [done|]. intros t Ht.
  assert (t ∈ (good ++ [s]) ++ splits) as [Ht1|Ht2]%elem_of_app
    by (by rewrite <-app_assoc).
  - destruct (Hhere t Ht1) as [?|Hin]; [by left|].
    apply Hrest, elem_of_app. by left.
  - apply Hrest, elem_of_app. by right.
Qed.

Lemma split_with_nil_blank self finer sep text :
  (forall other, finer = Some other ->
     forall t, other t = [] -> Str.blank t = true) ->
  TextSplitter.split_with self finer sep text = [] ->
  Str.blank text = true.
Proof.
  intros Hfiner. unfold TextSplitter.split_with.
  destruct (fold_left _ _ _) as [final good] eqn:Hfold. intros Hnil.
  assert (final = [] /\ Forall (fun t => Str.blank t = true) good)
    as [-> Hgood].
  { destruct (TextSplitter.nonempty good) eqn:Hne.
    - apply app_eq_nil in Hnil as [-> Hm]. split; [done|].
      by apply merge_splits_nil_blank in Hm.
    - split; [done|]. by destruct good. }
  destruct (split_fold_keeps _ _ _ _ _ _ _ Hfiner Hfold eq_refl) as [_ Hall].
  rewrite <-(split_text_with_regex_join text sep), blank_join.
  apply forallb_forall. intros t Ht%list_elem_of_In.
  destruct (Hall t) as [?|Hin]; [by rewrite app_nil_l|done|].
  by apply (proj1 (Forall_forall _ _) Hgood).
Qed.

(** The splitter returns no chunk only for a blank text, whatever its
    parameters. *)
Lemma split_text_rec_nil_blank self last separators text :
  TextSplitter.split_text_rec self last separators text = [] ->
  Str.blank text = true.
Proof.
  revert text. induction separators as [|s seps IH]; intros text.
  { cbn. by apply split_with_nil_blank. }
  cbn [TextSplitter.split_text_rec]. case_decide.
  { by apply split_with_nil_blank. }
  destruct (Str.contains s text); [|apply IH].
  apply split_with_nil_blank. intros other Hother.
  destruct seps; [done|]. injection Hother as <-. apply IH.
Qed.

Lemma split_text_first self text :
  Str.blank text = false ->
  exists t, TextSplitter.split_text self text !! 0%nat = Some t.
Proof.
  intros Hb. destruct (TextSplitter.split_text self text) as [|t l] eqn:Hs.
  - apply split_text_rec_nil_blank in Hs. congruence.
  - by exists t.
Qed.

Lemma page_chunks_count self doc (pages : list Page.t) :
  Forall (fun page => Str.blank (Page.text page) = false) pages ->
  (length pages <= length (pages ≫= page_chunks self doc))%nat.
Proof.
  intros Hall. induction Hall as [|page pages Hb _ IH]; [done|].
  rewrite bind_cons, length_app. cbn [length].
  destruct (split_text_first self _ Hb) as [t Ht]. unfold page_chunks at 1.
  rewrite length_fmap.
  rewrite <-(length_fmap fst), enumerate_from_fst, length_seq.
  apply lookup_lt_Some in Ht. lia.
Qed.

(** X18: no page with text is dropped.  Every entry of [pages_data]
    whose text is not blank gives at least one chunk, the one with
    sequence index 0 and that page's number; so the chunks are at least
    as many as the pages with text. *)
Theorem pages_with_text_keep_a_chunk pages doc chunk_size chunk_overlap
    chunks :
  chunk_document pages doc chunk_size chunk_overlap = Ok chunks ->
  (forall page, page ∈ pages -> Str.blank (Page.text page) = false ->
     exists c, c ∈ chunks /\
       Chunk.page_number c = Page.page_number page /\
       Chunk.chunk_id c = format_chunk_id doc (Page.page_number page) 0) /\
  (Forall (fun page => Str.blank (Page.text page) = false) pages ->
   (length pages <= length chunks)%nat).
Proof.
  intros (_ & _ & ->)%chunk_document_inv.
  set (sp := TextSplitter.mk chunk_size chunk_overlap chunk_separators).
  split; [|apply page_chunks_count].
  intros page Hpage Hb. destruct (split_text_first sp _ Hb) as [t Ht].
  exists (Chunk.mk (format_chunk_id doc (Page.page_number page) 0) doc
            (Page.page_number page) t).
  split; [|done]. apply list_elem_of_bind. exists page. split; [|done].
  apply page_chunks_elem. by exists 0%nat.
Qed.

(** X20: every ingested document, whatever its reader yields, is chunked
    without an error, with pairwise distinct chunk identifiers, page
    numbers between 1 and the page count, and at least one chunk for
    every page that has text. *)
Theorem ingested_document_chunks reader_pages doc :
  exists chunks,
    chunk_document (extract_pdf_pages reader_pages) doc 1000 200 = Ok chunks /\
    NoDup (Chunk.chunk_id <$> chunks) /\
    Forall (fun c => 1 <= Chunk.page_number c <= get_page_count reader_pages)
      chunks /\
    (length (extract_pdf_pages reader_pages) <= length chunks)%nat.
Proof.
  destruct (extract_pdf_pages_numbers reader_pages) as [Hnd Hrange].
  eexists. split; [by apply chunk_document_ok|]. split; [|split].
  - by apply chunk_ids_NoDup.
  - apply Forall_forall. intros c (page & Hc & Hpage)%list_elem_of_bind.
    apply page_chunks_elem in Hc as (idx & _ & ->). cbn.
    by apply (proj1 (Forall_forall _ _) Hrange).
  - apply page_chunks_count. apply Forall_forall.
    intros page (k & raw & _ & Hne & ->)%extract_pages_from_spec.
    cbn. destruct (Str.blank (Str.strip raw)) eqn:Hb; [|done].
    apply strip_nil_blank in Hb. by rewrite strip_idem in Hb.
Qed.

End coverage_facts.

Section failure_facts.

Context {Emb : Type}.
Context (distance : Emb -> Emb -> Q).
Context (embed_query : string -> result Emb).
Context (generate_content : string -> result (option string)).
Implicit Types (db : Chroma.Collection Emb).

(** X19: the [/query] endpoint answers with the error 500 exactly when
    the storage cannot be reached or the query cannot be embedded; a
    failure of the generation service never becomes an error of the
    endpoint. *)
Theorem query_documents_fails_iff request db calls :
  (exists status_code detail,
     (query_documents distance embed_query generate_content request db
        calls).1 = HTTPException status_code detail) <->
  Chroma.online db = false \/
  exists e, embed_query (question request) = Raise e.
Proof.
  destruct (Chroma.online db) eqn:Hon.
  2: { split; [by left|]. intros _.
       unfold query_documents, get_context, query_collection,
         Chroma.get_or_create_collection.
       rewrite Hon. cbn [mbind result_bind]. by eexists _, _. }
  destruct (embed_query (question request)) as [e|e] eqn:He.
  2: { split; [right; by exists e|]. intros _.
       unfold query_documents, get_context, query_collection,
         Chroma.get_or_create_collection.
       rewrite Hon. cbn [mbind result_bind]. rewrite He.
       cbn [mbind result_bind]. by eexists _, _. }
  split; [|by intros [?|[? ?]]].
  intros (status_code & detail & Hout). exfalso. revert Hout.
  unfold query_documents.
  rewrite (get_context_hits distance embed_query _ _ 5 db e Hon He) by done.
  destruct (no_context _); [done|].
  by destruct (generate_answer _ _ _ _).
Qed.

End failure_facts.

(** * The further facts on concrete inputs *)

Module MoreExamples.

Import Fixture.

(** X1 on a collection with one chunk whose text holds three dashes: one
    hit, one run of dashes inside its block, two sources reported. *)
Lemma sources_used_formula_witness :
  exists answer calls',
    query_documents distance embed_query generate_content
      {| question := "a"; doc_id := None |} (db_with [dashes_chunk]) []
    = (Response {| answer := answer;
                   response_question := "a";
                   sources_used := 2 |}, calls').
Proof.
  destruct (sources_used_formula distance embed_query generate_content
              {| question := "a"; doc_id := None |} (db_with [dashes_chunk])
              [] 1)
    as (answer & calls' & Hq & _);
    [reflexivity|reflexivity|vm_compute; discriminate|].
  exists answer, calls'. rewrite Hq. reflexivity.
Defined.

(** X6: the second of two saved chunks is stored with its text, its
    vector and its metadata. *)
Lemma save_stores_chunks_witness :
  Chroma.rows (db_with two_chunks) !! Chunk.chunk_id (chunk 2 0 "hello world")
  = Some {| Chroma.document := "hello world";
            Chroma.embedding := 11;
            Chroma.metadata :=
              chunk_metadata doc_metadata (chunk 2 0 "hello world") |}.
Proof.
  destruct (save_stores_chunks embed_documents two_chunks doc_metadata
              empty_db 2 (db_with two_chunks) [5; 11])
    as (_ & Hnew & _); [reflexivity|reflexivity|].
  apply (Hnew 1%nat); reflexivity.
Defined.

(** X7: saving two chunks of the document and deleting the document. *)
Lemma delete_after_save_witness :
  delete_document_chunks (UUID.str doc) (db_with two_chunks)
  = delete_document_chunks (UUID.str doc) empty_db.
Proof.
  apply (delete_after_save embed_documents two_chunks doc_metadata empty_db 2
           (db_with two_chunks) doc);
    [reflexivity|repeat constructor|reflexivity].
Defined.

(** X8: after the document of the two chunks is deleted, a query filtered
    to it has no context. *)
Lemma deleted_document_has_no_context_witness :
  get_context distance embed_query "hello" (Some (UUID.str doc)) 5 empty_db
  = Ok "".
Proof.
  destruct (deleted_document_has_no_context distance embed_query
              generate_content (UUID.str doc) (db_with two_chunks) empty_db
              "hello" 5 [])
    as [Hctx _]; [vm_compute; discriminate|vm_compute; reflexivity|reflexivity|].
  exact Hctx.
Defined.

(** X9: a chunk of page 3 saved with the file name of the fixture and
    queried with a text of the same length. *)
Lemma saved_chunk_is_cited_witness :
  exists db1,
    save_chunks_to_db embed_documents [chunk 3 0 "hello"] doc_metadata
      empty_db = Ok (1, db1) /\
    get_context distance embed_query "query" None 5 db1
    = Ok "[Source: report.pdf, Page 3] (Relevance: 100.00%)
hello".
Proof.
  destruct (saved_chunk_is_cited distance embed_documents embed_query
              (chunk 3 0 "hello") doc_metadata empty_db "query" 5 5 None)
    as (db1 & Hsave & Hctx); [reflexivity..|by left|].
  exists db1. split; [exact Hsave|]. rewrite Hctx. reflexivity.
Defined.

(** X10: a page cut with chunk size 8. *)
Lemma chunk_texts_bounded_witness :
  exists chunks,
    chunk_document [Page.mk "hello world" 1] doc 8 2 = Ok chunks /\
    Forall (fun c => Chunk.text c <> "" /\ Str.len (Chunk.text c) <= 8 /\
                     (1 < 8 -> trimmed (Chunk.text c))) chunks.
Proof.
  eexists. split; [vm_compute; reflexivity|].
  apply (chunk_texts_bounded [Page.mk "hello world" 1] doc 8 2).
  vm_compute. reflexivity.
Defined.

(** X12: six turns give the prompt of the last five. *)
Lemma old_turns_are_ignored_witness :
  generate_answer_with_history generate_content "Why?" "context"
    (Some ([turn "1"] ++ [turn "2"; turn "3"; turn "4"; turn "5"; turn "6"])) []
  = generate_answer_with_history generate_content "Why?" "context"
      (Some [turn "2"; turn "3"; turn "4"; turn "5"; turn "6"]) [].
Proof.
  destruct (old_turns_are_ignored generate_content "Why?" "context" [])
    as [_ Hold].
  apply Hold. cbn. lia.
Defined.

(** X14: the remote embedding function embeds both chunks. *)
Lemma gemini_save_succeeds_iff_witness :
  exists db',
    gemini_save_chunks_to_db embed_content two_chunks doc_metadata empty_db
    = Ok (2, db').
Proof.
  apply (proj2 (gemini_save_succeeds_iff embed_content two_chunks
                  doc_metadata empty_db ltac:(discriminate))).
  split; [reflexivity|]. split.
  - apply (bool_decide_unpack _). vm_compute. exact I.
  - repeat constructor; eexists; reflexivity.
Defined.

(** X15: a tag string without a comma. *)
Lemma parse_tags_spec_witness : parse_tags "  draft " = ["draft"].
Proof.
  destruct (parse_tags_spec "  draft ") as [_ Hone].
  rewrite Hone; reflexivity.
Defined.

(** X17: the upload of the reader of three pages into the empty
    collection. *)
Lemma upload_indexes_document_witness :
  exists r db',
    upload_document embed_documents "Report.PDF" "a, b" true doc 0 (Ok ())
      (ReaderPages reader_pages) empty_db = (Uploaded r, db') /\
    UploadResponse.chunks_count r = 2 /\
    UploadResponse.page_count r = 3 /\
    size (Chroma.rows db') = 2%nat.
Proof.
  destruct (upload_indexes_document embed_documents "Report.PDF" "a, b" doc 0
              reader_pages empty_db [10; 10])
    as (r & db' & Hup & Hcount & Hpages & _ & Hfresh);
    [reflexivity|vm_compute; discriminate|reflexivity|vm_compute; reflexivity
    |vm_compute; reflexivity|].
  exists r, db'. split; [exact Hup|]. split; [exact Hcount|].
  split; [exact Hpages|].
  destruct Hfresh as [Hsize _]; [by intros c _|]. exact Hsize.
Defined.

(** X18: two pages with text give at least two chunks. *)
Lemma pages_with_text_keep_a_chunk_witness :
  exists chunks,
    chunk_document [Page.mk "first" 1; Page.mk "second" 2] doc 1000 200
    = Ok chunks /\
    (2 <= length chunks)%nat.
Proof.
  eexists. split; [vm_compute; reflexivity|].
  destruct (pages_with_text_keep_a_chunk
              [Page.mk "first" 1; Page.mk "second" 2] doc 1000 200 _
              ltac:(vm_compute; reflexivity)) as [_ Hcount].
  apply Hcount. by repeat constructor.
Defined.

End MoreExamples.
